(** * FGP Blender daemon runtime: job queue, session manager, main-thread bridge

    A shallow embedding of
    - [blender/src/fgp_blender/jobs.py]     (module [Jobs]),
    - [blender/src/fgp_blender/session.py]  (module [Sessions]),
    - [blender/scripts/run_daemon_gui_v2.py] (module [Bridge]),
    - the routing of [dispatch] in [blender/src/fgp_blender/service.py]
      (module [Service]),
    together with the properties the specification states about them and
    further properties read off the code.

    Conventions of the embedding.
    - A Python [dict] is an insertion-ordered association list ([PyDict]):
      [values()] and [next(... for s in d.values() ...)] depend on that order.
    - A method that mutates [self] is a function from the object's state to
      the new state and the returned value; a [raise] is the [Raise] outcome,
      returned together with the state at the moment of the raise.
    - Every block executed under [self._lock] is one atomic function; the
      unlocked parts of [_process_job] are separate steps, so that other
      threads' operations can be placed between them.
    - A clock read, a fresh uuid and the content of a file are inputs. *)

From Stdlib Require Import ZArith String List Bool Lia Permutation Sorted.
From Stdlib Require Import OrderedTypeEx.
From Stdlib Require Import Floats.SpecFloat.
From stdpp Require Import base strings gmap list.

Open Scope string_scope.

(** ** Python values *)

(** A Python [float] is an IEEE 754 binary64 value. *)
Definition float : Type := spec_float.

Definition float_0 : float := S754_zero false.
Definition float_1 : float := S754_finite false 4503599627370496 (-52).

(** [max(a, b)] and [min(a, b)] of the builtins: the first argument is kept
    unless the second compares strictly greater (smaller).  A comparison
    with NaN is false. *)
Definition py_max (a b : float) : float := if SFltb a b then b else a.
Definition py_min (a b : float) : float := if SFltb b a then b else a.

(** Values of type [Any] that survive [json.dump]. *)
#[warnings="-register-all"]
Inductive Any : Type :=
| ANone
| ABool (b : bool)
| AInt (z : Z)
| AFloat (f : float)
| AStr (s : string)
| AList (l : list Any)
| ADict (d : list (string * Any)).

(** The outcome of a call: a returned value or a raised exception. *)
Inductive Exception : Type :=
| ValueError (message : string)
| KeyError (key : string)
| OverflowError.

Inductive outcome (A : Type) : Type :=
| Ok (a : A)
| Raise (e : Exception).
Arguments Ok {A} a.
Arguments Raise {A} e.

(** Truthiness of an optional string: [None] and [""] are falsy. *)
Definition truthy (o : option string) : bool :=
  match o with
  | Some s => negb (String.eqb s "")
  | None => false
  end.

(** [a or b] on optional strings. *)
Definition py_or (a b : option string) : option string :=
  if truthy a then a else b.

(** ** Insertion-ordered dictionaries with string keys *)

Module PyDict.

Abbreviation dict V := (list (string * V)).

Section Ops.
Context {V : Type}.

(** [d.get(k)] *)
Fixpoint get (k : string) (d : dict V) : option V :=
  match d with
  | [] => None
  | (k', v) :: d' => if String.eqb k k' then Some v else get k d'
  end.

(** [k in d] *)
Definition contains (k : string) (d : dict V) : bool :=
  match get k d with Some _ => true | None => false end.

(** [d[k] = v]: an existing key keeps its position, a new one goes last. *)
Fixpoint set (k : string) (v : V) (d : dict V) : dict V :=
  match d with
  | [] => [(k, v)]
  | (k', v') :: d' =>
      if String.eqb k k' then (k, v) :: d' else (k', v') :: set k v d'
  end.

(** [del d[k]] for a key that is present, [d.pop(k, None)] in general. *)
Fixpoint del (k : string) (d : dict V) : dict V :=
  match d with
  | [] => []
  | (k', v') :: d' =>
      if String.eqb k k' then del k d' else (k', v') :: del k d'
  end.

Definition keys (d : dict V) : list string := map fst d.
Definition values (d : dict V) : list V := map snd d.

(** The representation invariant of a dictionary: keys are unique. *)
Definition wf (d : dict V) : Prop := List.NoDup (keys d).

(** [next((v for v in d.values() if p(v)), None)] *)
Definition first_value (p : V -> bool) (d : dict V) : option V :=
  List.find p (values d).

End Ops.

End PyDict.

(** ** The job queue ([jobs.py]) *)

Module Jobs.
Import PyDict.

(** [class JobStatus(str, Enum)] *)
Inductive JobStatus : Type := PENDING | RUNNING | COMPLETED | FAILED | CANCELLED.

Definition JobStatus_value (s : JobStatus) : string :=
  match s with
  | PENDING => "pending"
  | RUNNING => "running"
  | COMPLETED => "completed"
  | FAILED => "failed"
  | CANCELLED => "cancelled"
  end.

(** [JobStatus(value)]; [None] stands for the [ValueError] of an unknown value. *)
Definition JobStatus_of_value (v : string) : option JobStatus :=
  if String.eqb v "pending" then Some PENDING
  else if String.eqb v "running" then Some RUNNING
  else if String.eqb v "completed" then Some COMPLETED
  else if String.eqb v "failed" then Some FAILED
  else if String.eqb v "cancelled" then Some CANCELLED
  else None.

Definition JobStatus_eqb (a b : JobStatus) : bool :=
  match a, b with
  | PENDING, PENDING | RUNNING, RUNNING | COMPLETED, COMPLETED
  | FAILED, FAILED | CANCELLED, CANCELLED => true
  | _, _ => false
  end.

(** [status in (COMPLETED, FAILED, CANCELLED)] *)
Definition is_terminal (s : JobStatus) : bool :=
  match s with
  | COMPLETED | FAILED | CANCELLED => true
  | PENDING | RUNNING => false
  end.

(** [status in (PENDING, RUNNING)] *)
Definition is_unfinished (s : JobStatus) : bool :=
  match s with
  | PENDING | RUNNING => true
  | COMPLETED | FAILED | CANCELLED => false
  end.

(** [class JobType(str, Enum)] *)
Inductive JobType : Type :=
  RENDER_IMAGE | RENDER_ANIMATION | BAKE_PHYSICS | BAKE_TEXTURES | EXPORT.

Definition JobType_value (t : JobType) : string :=
  match t with
  | RENDER_IMAGE => "render_image"
  | RENDER_ANIMATION => "render_animation"
  | BAKE_PHYSICS => "bake_physics"
  | BAKE_TEXTURES => "bake_textures"
  | EXPORT => "export"
  end.

Definition JobType_of_value (v : string) : option JobType :=
  if String.eqb v "render_image" then Some RENDER_IMAGE
  else if String.eqb v "render_animation" then Some RENDER_ANIMATION
  else if String.eqb v "bake_physics" then Some BAKE_PHYSICS
  else if String.eqb v "bake_textures" then Some BAKE_TEXTURES
  else if String.eqb v "export" then Some EXPORT
  else None.

(** [@dataclass class Job] *)
Record Job : Type := mkJob {
  id : string;
  job_type : JobType;
  status : JobStatus;
  created_at : string;
  started_at : option string;
  completed_at : option string;
  progress : float;
  progress_message : string;
  params : dict Any;
  result : option (dict Any);
  error : option string;
  session_id : option string
}.

(** Attribute assignments [job.<field> = x]. *)
Definition set_status (x : JobStatus) (j : Job) : Job :=
  mkJob (id j) (job_type j) x (created_at j) (started_at j) (completed_at j)
        (progress j) (progress_message j) (params j) (result j) (error j)
        (session_id j).
Definition set_started_at (x : option string) (j : Job) : Job :=
  mkJob (id j) (job_type j) (status j) (created_at j) x (completed_at j)
        (progress j) (progress_message j) (params j) (result j) (error j)
        (session_id j).
Definition set_completed_at (x : option string) (j : Job) : Job :=
  mkJob (id j) (job_type j) (status j) (created_at j) (started_at j) x
        (progress j) (progress_message j) (params j) (result j) (error j)
        (session_id j).
Definition set_progress (x : float) (j : Job) : Job :=
  mkJob (id j) (job_type j) (status j) (created_at j) (started_at j)
        (completed_at j) x (progress_message j) (params j) (result j)
        (error j) (session_id j).
Definition set_progress_message (x : string) (j : Job) : Job :=
  mkJob (id j) (job_type j) (status j) (created_at j) (started_at j)
        (completed_at j) (progress j) x (params j) (result j) (error j)
        (session_id j).
Definition set_result (x : option (dict Any)) (j : Job) : Job :=
  mkJob (id j) (job_type j) (status j) (created_at j) (started_at j)
        (completed_at j) (progress j) (progress_message j) (params j) x
        (error j) (session_id j).
Definition set_error (x : option string) (j : Job) : Job :=
  mkJob (id j) (job_type j) (status j) (created_at j) (started_at j)
        (completed_at j) (progress j) (progress_message j) (params j)
        (result j) x (session_id j).

(** One record of the persisted log, as [Job.to_dict()] writes it: all
    twelve fields, the two enums turned into their string values.  (A
    record that leaves out fields with a default is not of this type.) *)
Record JobData : Type := mkJobData {
  data_id : string;
  data_job_type : string;
  data_status : string;
  data_created_at : string;
  data_started_at : option string;
  data_completed_at : option string;
  data_progress : float;
  data_progress_message : string;
  data_params : dict Any;
  data_result : option (dict Any);
  data_error : option string;
  data_session_id : option string
}.

Definition to_dict (j : Job) : JobData :=
  mkJobData (id j) (JobType_value (job_type j)) (JobStatus_value (status j))
            (created_at j) (started_at j) (completed_at j) (progress j)
            (progress_message j) (params j) (result j) (error j)
            (session_id j).

(** [Job.from_dict(data)] on a record with the fields of a job: [None] when
    one of the two enum constructors raises [ValueError]. *)
Definition from_dict (data : JobData) : option Job :=
  match JobType_of_value (data_job_type data) with
  | None => None
  | Some t =>
      match JobStatus_of_value (data_status data) with
      | None => None
      | Some s =>
          Some (mkJob (data_id data) t s (data_created_at data)
                      (data_started_at data) (data_completed_at data)
                      (data_progress data) (data_progress_message data)
                      (data_params data) (data_result data) (data_error data)
                      (data_session_id data))
      end
  end.

(** The content of [jobs.json]: absent, not a JSON document, or a document
    whose ["jobs"] entry is the list of records. *)
Inductive JobsFile : Type :=
| NoFile
| NotJson
| JobsDoc (jobs : list JobData).

(** A handler is called as [handler(job.params, progress_callback)].  What
    the queue observes of one call is the sequence of progress reports and
    then either a returned result or a raised exception, given by [str(e)]. *)
Record HandlerRun : Type := mkHandlerRun {
  progress_calls : list (float * string);
  returned : dict Any + string
}.

Definition Handler : Type := dict Any -> HandlerRun.

(** The state of a [JobQueue] object.  [_queue] is the FIFO of job ids,
    [_jobs_file] the content of [jobs.json]. *)
Record JobQueue : Type := mkJobQueue {
  _jobs : dict Job;
  _handlers : dict Handler;
  _queue : list string;
  _jobs_file : JobsFile
}.

Definition with_jobs (jobs : dict Job) (q : JobQueue) : JobQueue :=
  mkJobQueue jobs (_handlers q) (_queue q) (_jobs_file q).
Definition with_handlers (h : dict Handler) (q : JobQueue) : JobQueue :=
  mkJobQueue (_jobs q) h (_queue q) (_jobs_file q).
Definition with_queue (l : list string) (q : JobQueue) : JobQueue :=
  mkJobQueue (_jobs q) (_handlers q) l (_jobs_file q).
Definition with_jobs_file (f : JobsFile) (q : JobQueue) : JobQueue :=
  mkJobQueue (_jobs q) (_handlers q) (_queue q) f.

(** [self._queue.put(job_id)] *)
Definition queue_put (job_id : string) (q : JobQueue) : JobQueue :=
  with_queue (_queue q ++ [job_id])%list q.

(** [sorted(jobs, key=lambda j: j.created_at, reverse=True)]: descending,
    and stable (jobs with equal keys keep their order). *)
Fixpoint insert_desc (j : Job) (l : list Job) : list Job :=
  match l with
  | [] => [j]
  | j' :: l' =>
      if String.ltb (created_at j) (created_at j')
      then j' :: insert_desc j l'
      else j :: l
  end.

Definition sorted_desc (l : list Job) : list Job :=
  fold_right insert_desc [] l.

(** [_save_jobs]: the 100 most recent jobs are written to [jobs.json].  An
    I/O error is logged and swallowed by the source; the write is taken to
    succeed. *)
Definition _save_jobs (q : JobQueue) : JobQueue :=
  let recent_jobs := firstn 100 (sorted_desc (values (_jobs q))) in
  with_jobs_file (JobsDoc (map to_dict recent_jobs)) q.

(** The loop of [_load_jobs].  [from_dict] raising ends the loop: the
    exception is caught outside of it, and what was loaded stays.  The
    assignments to [job] after [self._jobs[job.id] = job] act on the stored
    object. *)
Fixpoint load_loop (data : list JobData) (q : JobQueue) : JobQueue :=
  match data with
  | [] => q
  | job_data :: rest =>
      match from_dict job_data with
      | None => q
      | Some job =>
          let q1 := with_jobs (set (id job) job (_jobs q)) q in
          if is_unfinished (status job) then
            let job' := set_progress float_0 (set_status PENDING job) in
            load_loop rest
              (queue_put (id job) (with_jobs (set (id job) job' (_jobs q1)) q1))
          else load_loop rest q1
      end
  end.

Definition _load_jobs (q : JobQueue) : JobQueue :=
  match _jobs_file q with
  | NoFile => q
  | NotJson => q
  | JobsDoc data => load_loop data q
  end.

(** [JobQueue.__init__], given what [jobs.json] holds. *)
Definition init (file : JobsFile) : JobQueue :=
  _load_jobs (mkJobQueue [] [] [] file).

(** [job.<field> = x] on the object stored under [job_id].  In the second
    half of [_process_job] the assignments go to the local [job], the
    object that the first half found under [job_id]; it is still the stored
    one, since an entry is replaced only by [submit] with the same uuid and
    removed only by [cleanup], which leaves a Running job alone. *)
Definition update (job_id : string) (f : Job -> Job) (q : JobQueue) : JobQueue :=
  match get job_id (_jobs q) with
  | Some job => with_jobs (set job_id (f job) (_jobs q)) q
  | None => q
  end.

Section WithClock.

(** Time is counted in microseconds; [isoformat t] is
    [datetime.isoformat()] of the UTC datetime [t]. *)
Variable isoformat : Z -> string.

(** [submit]; [job_id] is [str(uuid.uuid4())[:12]]. *)
Definition submit (job_id : string) (now : Z) (job_type : JobType)
    (params : dict Any) (handler : Handler) (session_id : option string)
    (q : JobQueue) : JobQueue * string :=
  let job := mkJob job_id job_type PENDING (isoformat now) None None float_0 ""
                   params None None session_id in
  let q1 := with_jobs (set job_id job (_jobs q)) q in
  let q2 := with_handlers (set job_id handler (_handlers q1)) q1 in
  (queue_put job_id (_save_jobs q2), job_id).

(** [get] *)
Definition get_job (job_id : string) (q : JobQueue) : option Job :=
  get job_id (_jobs q).

(** [cancel] *)
Definition cancel (now : Z) (job_id : string) (q : JobQueue) : JobQueue * bool :=
  match get job_id (_jobs q) with
  | None => (q, false)
  | Some job =>
      if negb (JobStatus_eqb (status job) PENDING) then (q, false)
      else
        let job' := set_completed_at (Some (isoformat now))
                      (set_status CANCELLED job) in
        let q1 := with_jobs (set job_id job' (_jobs q)) q in
        let q2 := with_handlers (del job_id (_handlers q1)) q1 in
        (_save_jobs q2, true)
  end.

(** The first locked block of [_process_job].  The result tells whether the
    job was claimed, and then with which handler and parameters. *)
Definition _process_job_claim (now : Z) (job_id : string) (q : JobQueue)
    : JobQueue * option (Handler * dict Any) :=
  match get job_id (_jobs q) with
  | None => (q, None)
  | Some job =>
      match get job_id (_handlers q) with
      | None =>
          let job' := set_error (Some "No handler registered")
                        (set_status FAILED job) in
          (_save_jobs (with_jobs (set job_id job' (_jobs q)) q), None)
      | Some handler =>
          let job' := set_started_at (Some (isoformat now))
                        (set_status RUNNING job) in
          (_save_jobs (with_jobs (set job_id job' (_jobs q)) q),
           Some (handler, params job))
      end
  end.

(** [progress_callback(progress, message)] of the job [job_id]. *)
Definition progress_callback (job_id : string) (progress : float)
    (message : string) (q : JobQueue) : JobQueue :=
  if contains job_id (_jobs q) then
    update job_id
      (fun j => set_progress_message message
                  (set_progress (py_min (py_max progress float_0) float_1) j))
      q
  else q.

(** The block after the handler returned [result]. *)
Definition _process_job_completed (now : Z) (job_id : string)
    (result : dict Any) (q : JobQueue) : JobQueue :=
  _save_jobs
    (update job_id
       (fun j => set_result (Some result)
                   (set_progress float_1
                      (set_completed_at (Some (isoformat now))
                         (set_status COMPLETED j))))
       q).

(** The [except] block, [e] being [str(e)]. *)
Definition _process_job_failed (now : Z) (job_id : string) (e : string)
    (q : JobQueue) : JobQueue :=
  _save_jobs
    (update job_id
       (fun j => set_error (Some e)
                   (set_completed_at (Some (isoformat now))
                      (set_status FAILED j)))
       q).

(** The [finally] block. *)
Definition _process_job_finally (job_id : string) (q : JobQueue) : JobQueue :=
  with_handlers (del job_id (_handlers q)) q.

(** [_process_job] run without interruption by another thread; [now] is
    the clock at the claim and [now'] the clock when the handler is done. *)
Definition _process_job (now now' : Z) (job_id : string) (q : JobQueue)
    : JobQueue :=
  match _process_job_claim now job_id q with
  | (q1, None) => q1
  | (q1, Some (handler, job_params)) =>
      let run := handler job_params in
      let q2 := fold_left
                  (fun acc call => progress_callback job_id (fst call) (snd call) acc)
                  (progress_calls run) q1 in
      let q3 := match returned run with
                | inl result => _process_job_completed now' job_id result q2
                | inr e => _process_job_failed now' job_id e q2
                end in
      _process_job_finally job_id q3
  end.

(** One round of [_worker_loop]: take the next id of the queue, if any. *)
Definition worker_round (now now' : Z) (q : JobQueue) : JobQueue :=
  match _queue q with
  | [] => q
  | job_id :: rest => _process_job now now' job_id (with_queue rest q)
  end.

(** The test of the loop of [cleanup]. *)
Definition expired (cutoff_iso : string) (job : Job) : bool :=
  is_terminal (status job)
  && match completed_at job with
     | Some t => negb (String.eqb t "") && String.ltb t cutoff_iso
     | None => false
     end.

Definition cleanup_step (cutoff_iso : string) (acc : dict Job * nat)
    (item : string * Job) : dict Job * nat :=
  if expired cutoff_iso (snd item)
  then (del (fst item) (fst acc), S (snd acc))
  else acc.

(** [timedelta(hours=h)] is [h * 3600 * 10^6] microseconds.  Its constructor
    raises [OverflowError] unless the whole days of the duration, [h // 24],
    have a magnitude of at most 999999999. *)
Definition timedelta_ok (hours : Z) : bool :=
  ((-999999999 <=? hours / 24) && (hours / 24 <=? 999999999))%Z.

(** [datetime.min] and [datetime.max], the first microsecond of year 1 and
    the last one of year 9999, counted from the epoch.  Arithmetic on a
    datetime raises [OverflowError] when the result is not between them. *)
Definition datetime_min : Z := (-62135596800000000)%Z.
Definition datetime_max : Z := 253402300799999999%Z.

Definition datetime_ok (t : Z) : bool :=
  ((datetime_min <=? t) && (t <=? datetime_max))%Z.

(** [cleanup].  The cutoff is computed before the lock is taken: when
    [timedelta(hours=max_age_hours)] or the subtraction raises, nothing has
    been touched. *)
Definition cleanup (now : Z) (max_age_hours : Z) (q : JobQueue)
    : JobQueue * outcome nat :=
  if negb (timedelta_ok max_age_hours) then (q, Raise OverflowError)
  else
    let cutoff := (now - max_age_hours * 3600000000)%Z in
    if negb (datetime_ok cutoff) then (q, Raise OverflowError)
    else
      let cutoff_iso := isoformat cutoff in
      let '(jobs, removed) :=
        fold_left (cleanup_step cutoff_iso) (_jobs q) (_jobs q, 0%nat) in
      let q1 := with_jobs jobs q in
      (if (0 <? removed)%nat then _save_jobs q1 else q1, Ok removed).

End WithClock.

(** [jobs[:limit]]: a negative [limit] counts from the end. *)
Definition slice_to {A : Type} (limit : Z) (l : list A) : list A :=
  if (0 <=? limit)%Z then firstn (Z.to_nat limit) l
  else firstn (length l - Z.to_nat (- limit)) l.

Definition JobType_eqb (a b : JobType) : bool :=
  match a, b with
  | RENDER_IMAGE, RENDER_IMAGE | RENDER_ANIMATION, RENDER_ANIMATION
  | BAKE_PHYSICS, BAKE_PHYSICS | BAKE_TEXTURES, BAKE_TEXTURES
  | EXPORT, EXPORT => true
  | _, _ => false
  end.

(** [j.session_id == session_id] for a string [session_id]. *)
Definition session_is (by_session : string) (j : Job) : bool :=
  match session_id j with
  | Some s => String.eqb s by_session
  | None => false
  end.

(** [list(status, job_type, session_id, limit)].  A member of the two
    enums is truthy (its value is a non-empty string), so each of the
    first two filters applies when it is given; the third applies when
    [session_id] is neither [None] nor [""]. *)
Definition list_jobs (by_status : option JobStatus) (by_type : option JobType)
    (by_session : option string) (limit : Z) (q : JobQueue) : list Job :=
  let jobs := values (_jobs q) in
  let jobs := match by_status with
              | Some s => List.filter (fun j => JobStatus_eqb (status j) s) jobs
              | None => jobs
              end in
  let jobs := match by_type with
              | Some t => List.filter (fun j => JobType_eqb (job_type j) t) jobs
              | None => jobs
              end in
  let jobs := match by_session with
              | Some sid =>
                  if truthy (Some sid) then List.filter (session_is sid) jobs
                  else jobs
              | None => jobs
              end in
  slice_to limit (sorted_desc jobs).

(** Truthiness of an optional float: [None], [0.0] and [-0.0] are falsy. *)
Definition float_truthy (o : option float) : bool :=
  match o with
  | Some (S754_zero _) => false
  | Some _ => true
  | None => false
  end.

(** The loop of [wait(job_id, timeout)], [start] being the first reading
    of [time.time()].  Each round looks at the queue as the other threads
    have left it and, when it gets to the timeout test with a truthy
    [timeout], reads the clock; [polls] gives both for the rounds to come.
    The result is [Some r] when the loop returns [r] within these rounds
    and [None] when it is still sleeping after the last of them. *)
Fixpoint wait_polls (job_id : string) (timeout : option float) (start : float)
    (polls : list (JobQueue * float)) : option (option Job) :=
  match polls with
  | [] => None
  | (q, t) :: rest =>
      match get_job job_id q with
      | None => Some None
      | Some job =>
          if is_terminal (status job) then Some (Some job)
          else
            match timeout with
            | Some limit =>
                if float_truthy timeout && SFltb limit (SFsub 53 1024 t start)
                then Some None
                else wait_polls job_id timeout start rest
            | None => wait_polls job_id timeout start rest
            end
      end
  end.

End Jobs.

(** ** The session manager ([session.py]) *)

Module Sessions.
Import PyDict.

(** [@dataclass class Session] *)
Record Session : Type := mkSession {
  id : string;
  name : string;
  blend_file : string;
  created_at : string;
  modified_at : string;
  is_default : bool;
  metadata : dict Any
}.

(** [session.modified_at = x] *)
Definition set_modified_at (x : string) (s : Session) : Session :=
  mkSession (id s) (name s) (blend_file s) (created_at s) x (is_default s)
            (metadata s).

(** The content of [sessions.json]: absent, not a JSON document, or a
    document with its ["sessions"] list and its ["current"] entry.  The
    records have the fields of a session, so [Session.from_dict] does not
    raise on them. *)
Inductive SessionsFile : Type :=
| NoFile
| NotJson
| SessionsDoc (sessions : list Session) (current : option string).

(** The state of a [SessionManager] object together with the part of the
    file system it works on: [disk] is the set of paths of the backing
    files that exist, [_sessions_file] the content of [sessions.json]. *)
Record SessionManager : Type := mkSessionManager {
  sessions : dict Session;
  current_session_id : option string;
  disk : gset string;
  _sessions_file : SessionsFile
}.

Definition with_sessions (d : dict Session) (m : SessionManager) : SessionManager :=
  mkSessionManager d (current_session_id m) (disk m) (_sessions_file m).
Definition with_current (c : option string) (m : SessionManager) : SessionManager :=
  mkSessionManager (sessions m) c (disk m) (_sessions_file m).
Definition with_disk (f : gset string) (m : SessionManager) : SessionManager :=
  mkSessionManager (sessions m) (current_session_id m) f (_sessions_file m).
Definition with_sessions_file (f : SessionsFile) (m : SessionManager) : SessionManager :=
  mkSessionManager (sessions m) (current_session_id m) (disk m) f.

(** [Path(p).exists()] *)
Definition path_exists (p : string) (m : SessionManager) : bool :=
  bool_decide (p ∈ disk m).

(** [if blend_path.exists(): blend_path.unlink()] *)
Definition unlink_if_exists (p : string) (m : SessionManager) : SessionManager :=
  if path_exists p m then with_disk (disk m ∖ {[ p ]}) m else m.

(** [_save_sessions]; as for the job log, the write is taken to succeed. *)
Definition _save_sessions (m : SessionManager) : SessionManager :=
  with_sessions_file
    (SessionsDoc (values (sessions m)) (current_session_id m)) m.

(** The loop of [_load_sessions]. *)
Definition load_step (m : SessionManager) (session : Session) : SessionManager :=
  if path_exists (blend_file session) m
  then with_sessions (set (id session) session (sessions m)) m
  else m.

Definition _load_sessions (m : SessionManager) : SessionManager :=
  match _sessions_file m with
  | NoFile => m
  | NotJson => m
  | SessionsDoc data _ => fold_left load_step data m
  end.

(** [next((s for s in self.sessions.values() if s.is_default), None)] *)
Definition default_session (m : SessionManager) : option Session :=
  first_value is_default (sessions m).

Section WithEnvironment.

(** [FGP_SESSIONS_DIR] as a string, and [datetime.isoformat()] of a time
    counted in microseconds. *)
Variable FGP_SESSIONS_DIR : string.
Variable isoformat : Z -> string.

(** [str(self._sessions_dir / file_name)] for a relative [file_name]. *)
Definition in_sessions_dir (file_name : string) : string :=
  FGP_SESSIONS_DIR ++ "/" ++ file_name.

(** [_create_default_session] *)
Definition _create_default_session (now : Z) (m : SessionManager)
    : SessionManager * Session :=
  let session := mkSession "default" "Default" (in_sessions_dir "default.blend")
                           (isoformat now) (isoformat now) true [] in
  (_save_sessions (with_sessions (set "default" session (sessions m)) m),
   session).

(** [SessionManager.__init__], given the clock, the files that exist and
    what [sessions.json] holds. *)
Definition init (now : Z) (files : gset string) (file : SessionsFile)
    : SessionManager :=
  let m1 := _load_sessions (mkSessionManager [] None files file) in
  let m2 := if existsb is_default (values (sessions m1)) then m1
            else fst (_create_default_session now m1) in
  match default_session m2 with
  | Some default => with_current (Some (id default)) m2
  | None => m2
  end.

(** [create]; [session_id] is [str(uuid.uuid4())[:8]]. *)
Definition create (session_id : string) (now : Z) (name : string)
    (metadata : option (dict Any)) (m : SessionManager)
    : SessionManager * Session :=
  let session := mkSession session_id name
                           (in_sessions_dir (session_id ++ ".blend"))
                           (isoformat now) (isoformat now) false
                           (match metadata with Some d => d | None => [] end) in
  (_save_sessions (with_sessions (set session_id session (sessions m)) m),
   session).

(** [get] *)
Definition get_session (session_id : string) (m : SessionManager)
    : option Session :=
  get session_id (sessions m).

(** [get_current] *)
Definition get_current (m : SessionManager) : option Session :=
  match current_session_id m with
  | Some c => if truthy (Some c) then get c (sessions m) else None
  | None => None
  end.

(** [switch] *)
Definition switch (session_id : string) (m : SessionManager)
    : SessionManager * outcome Session :=
  match get session_id (sessions m) with
  | None => (m, Raise (ValueError ("Session not found: " ++ session_id)))
  | Some session =>
      (_save_sessions (with_current (Some session_id) m), Ok session)
  end.

(** [list] *)
Definition list_sessions (m : SessionManager) : list Session :=
  values (sessions m).

(** The block of [delete] under "Switch to default if this was current". *)
Definition switch_to_default_if_current (session_id : string)
    (m : SessionManager) : SessionManager :=
  match current_session_id m with
  | Some c =>
      if String.eqb c session_id then
        match default_session m with
        | Some default => with_current (Some (id default)) m
        | None => m
        end
      else m
  | None => m
  end.

(** [delete] *)
Definition delete (session_id : string) (m : SessionManager)
    : SessionManager * outcome bool :=
  match get session_id (sessions m) with
  | None => (m, Ok false)
  | Some session =>
      if is_default session
      then (m, Raise (ValueError "Cannot delete default session"))
      else
        let m1 := unlink_if_exists (blend_file session) m in
        let m2 := with_sessions (del session_id (sessions m1)) m1 in
        (_save_sessions (switch_to_default_if_current session_id m2), Ok true)
  end.

(** [reset] *)
Definition reset (now : Z) (session_id : option string) (m : SessionManager)
    : SessionManager * outcome Session :=
  match py_or session_id (current_session_id m) with
  | None =>
      (m, Raise (ValueError "No session specified and no current session"))
  | Some sid =>
      if negb (truthy (Some sid))
      then (m, Raise (ValueError "No session specified and no current session"))
      else
        match get sid (sessions m) with
        | None => (m, Raise (ValueError ("Session not found: " ++ sid)))
        | Some session =>
            let m1 := unlink_if_exists (blend_file session) m in
            let session' := set_modified_at (isoformat now) session in
            let m2 := with_sessions (set sid session' (sessions m1)) m1 in
            (_save_sessions m2, Ok session')
        end
  end.

(** [update_modified] *)
Definition update_modified (now : Z) (session_id : option string)
    (m : SessionManager) : SessionManager :=
  match py_or session_id (current_session_id m) with
  | None => m
  | Some sid =>
      if truthy (Some sid) then
        match get sid (sessions m) with
        | Some session =>
            _save_sessions
              (with_sessions
                 (set sid (set_modified_at (isoformat now) session) (sessions m))
                 m)
        | None => m
        end
      else m
  end.

(** [get_blend_file] *)
Definition get_blend_file (session_id : option string) (m : SessionManager)
    : outcome string :=
  match py_or session_id (current_session_id m) with
  | None => Raise (ValueError "No session specified and no current session")
  | Some sid =>
      if negb (truthy (Some sid))
      then Raise (ValueError "No session specified and no current session")
      else
        match get sid (sessions m) with
        | None => Raise (ValueError ("Session not found: " ++ sid))
        | Some session => Ok (blend_file session)
        end
  end.

(** The public operations of a [SessionManager], each with its arguments
    and the inputs it reads from the environment. *)
Inductive Op : Type :=
| OpCreate (session_id : string) (now : Z) (name : string)
           (metadata : option (dict Any))
| OpGet (session_id : string)
| OpGetCurrent
| OpSwitch (session_id : string)
| OpList
| OpDelete (session_id : string)
| OpReset (now : Z) (session_id : option string)
| OpUpdateModified (now : Z) (session_id : option string)
| OpGetBlendFile (session_id : option string).

(** The state after an operation, and whether it raised. *)
Definition run (op : Op) (m : SessionManager) : SessionManager * bool :=
  match op with
  | OpCreate session_id now name metadata =>
      (fst (create session_id now name metadata m), false)
  | OpGet _ => (m, false)
  | OpGetCurrent => (m, false)
  | OpSwitch session_id =>
      (fst (switch session_id m),
       match snd (switch session_id m) with Raise _ => true | Ok _ => false end)
  | OpList => (m, false)
  | OpDelete session_id =>
      (fst (delete session_id m),
       match snd (delete session_id m) with Raise _ => true | Ok _ => false end)
  | OpReset now session_id =>
      (fst (reset now session_id m),
       match snd (reset now session_id m) with Raise _ => true | Ok _ => false end)
  | OpUpdateModified now session_id => (update_modified now session_id m, false)
  | OpGetBlendFile session_id =>
      (m, match get_blend_file session_id m with Raise _ => true | Ok _ => false end)
  end.

End WithEnvironment.

End Sessions.

(** ** The main-thread bridge ([run_daemon_gui_v2.py]) *)

Module Bridge.
Import PyDict.

(** Modelled from the spec: [ErrorCodes] of [fgp_daemon.protocol], which is
    not among the sources.  The specification lists parse error,
    method-not-found, invalid-params, internal error and timeout; the
    script uses [PARSE_ERROR] and [INTERNAL_ERROR]. *)
Inductive ErrorCodes : Type :=
| PARSE_ERROR
| METHOD_NOT_FOUND
| INVALID_PARAMS
| INTERNAL_ERROR
| TIMEOUT.

(** Modelled from the spec: [Request] of [fgp_daemon.protocol], with the
    fields [id], [v], [method], [params]. *)
Record Request : Type := mkRequest {
  id : string;
  v : Z;
  method : string;
  params : Any
}.

(** Modelled from the spec: [Response] of [fgp_daemon.protocol], either a
    success with its result or a failure with an error code and a message,
    both with the id they answer and [server_ms].  [Response.success] and
    [Response.error] build the two forms. *)
Inductive Response : Type :=
| Success (id : string) (result : Any) (server_ms : float)
| Failure (id : string) (code : ErrorCodes) (message : string)
          (server_ms : float).

(** [1000.0] *)
Definition float_1000 : float := S754_finite false 8796093022208000 (-43).

(** [(end - start) * 1000] on two readings of [time.perf_counter()]. *)
Definition elapsed_ms (start_time end_time : float) : float :=
  SFmul 53 1024 (SFsub 53 1024 end_time start_time) float_1000.

(** The module-level state of the script.  [events] is the store of the
    [threading.Event] objects, each with its flag; [result_events] maps a
    request id to the event registered for it; [result_store] maps a
    request id to [("ok", result)], here [inl result], or to
    [("error", message)], here [inr message]. *)
Record State (Service : Type) : Type := mkState {
  operation_queue : list (string * string * Any);
  result_store : dict (Any + string);
  result_events : dict nat;
  events : list bool;
  service : Service
}.
Arguments mkState {Service}.
Arguments operation_queue {Service}.
Arguments result_store {Service}.
Arguments result_events {Service}.
Arguments events {Service}.
Arguments service {Service}.

Section WithService.

(** The worker behind the bridge and the protocol module: the state of the
    [BlenderService], the result dictionaries built for [health] and
    [methods] (or the message of the exception raised on the way),
    [service.dispatch], [bytes.decode], [Request.from_ndjson_line] and
    [response.to_ndjson_line().encode()]. *)
Variable Service : Type.
Variable health_result : Service -> Any + string.
Variable methods_result : Service -> Any + string.
Variable dispatch : Service -> string -> Any -> Service * (Any + string).
Variable bytes_decode : string -> string + string.
Variable from_ndjson_line : string -> Request + string.
Variable to_ndjson_bytes : Response -> string.

Definition with_operation_queue (l : list (string * string * Any))
    (st : State Service) : State Service :=
  mkState l (result_store st) (result_events st) (events st) (service st).
Definition with_result_store (d : dict (Any + string))
    (st : State Service) : State Service :=
  mkState (operation_queue st) d (result_events st) (events st) (service st).
Definition with_result_events (d : dict nat)
    (st : State Service) : State Service :=
  mkState (operation_queue st) (result_store st) d (events st) (service st).
Definition with_events (l : list bool)
    (st : State Service) : State Service :=
  mkState (operation_queue st) (result_store st) (result_events st) l (service st).
Definition with_service (s : Service)
    (st : State Service) : State Service :=
  mkState (operation_queue st) (result_store st) (result_events st) (events st) s.

(** [event.set()] and [event.is_set()] on the event stored at [ref]. *)
Fixpoint event_set (ref : nat) (l : list bool) : list bool :=
  match l, ref with
  | [], _ => []
  | _ :: l', O => true :: l'
  | b :: l', S ref' => b :: event_set ref' l'
  end.

Definition event_is_set (ref : nat) (l : list bool) : bool :=
  nth ref l false.

(** The body of the inner [try] of [process_queue] for one item. *)
Definition execute (method : string) (prms : Any) (svc : Service)
    : Service * (Any + string) :=
  if String.eqb method "health" then (svc, health_result svc)
  else if String.eqb method "methods" then (svc, methods_result svc)
  else if String.eqb method "stop" then
    (svc, inl (ADict [("stopping", ABool true)]))
  else dispatch svc method prms.

Definition process_item (st : State Service) (item : string * string * Any)
    : State Service :=
  let '(request_id, method, prms) := item in
  let '(svc, r) := execute method prms (service st) in
  let st1 := with_result_store (set request_id r (result_store st))
               (with_service svc st) in
  match get request_id (result_events st1) with
  | Some ref => with_events (event_set ref (events st1)) st1
  | None => st1
  end.

(** [process_queue]: one tick of the timer drains the queue. *)
Definition process_queue (st : State Service) : State Service :=
  fold_left process_item (operation_queue st) (with_operation_queue [] st).

(** [handle_request] up to the wait: the request is decoded; on failure the
    reply is returned at once ([inl]); otherwise a fresh event is registered
    under the request's id and the operation is queued ([inr], with the
    request and the event this thread will wait on). *)
Definition handle_request_begin (start_time error_time : float)
    (request_data : string) (st : State Service)
    : State Service * (string + Request * nat) :=
  let parse_error (e : string) :=
    to_ndjson_bytes
      (Failure "unknown" PARSE_ERROR ("Invalid request: " ++ e)
               (elapsed_ms start_time error_time)) in
  match bytes_decode request_data with
  | inr e => (st, inl (parse_error e))
  | inl line =>
      match from_ndjson_line line with
      | inr e => (st, inl (parse_error e))
      | inl request =>
          let event := length (events st) in
          let st1 := with_events (events st ++ [false])%list st in
          let st2 := with_result_events
                       (set (id request) event (result_events st1)) st1 in
          (with_operation_queue
             (operation_queue st2
                ++ [(id request, method request, params request)])%list st2,
           inr (request, event))
      end
  end.

(** [handle_request] from the return of [event.wait(timeout=30.0)], which
    is true when the event was set in time. *)
Definition handle_request_end (start_time end_time : float)
    (request : Request) (event : nat) (st : State Service)
    : State Service * outcome string :=
  if event_is_set event (events st) then
    let data := match get (id request) (result_store st) with
                | Some r => r
                | None => inr "No result"
                end in
    let st1 := with_result_store (del (id request) (result_store st)) st in
    match get (id request) (result_events st1) with
    | None => (st1, Raise (KeyError (id request)))
    | Some _ =>
        let st2 := with_result_events
                     (del (id request) (result_events st1)) st1 in
        let ms := elapsed_ms start_time end_time in
        (st2,
         Ok (to_ndjson_bytes
               match data with
               | inl result => Success (id request) result ms
               | inr message => Failure (id request) INTERNAL_ERROR message ms
               end))
    end
  else
    (st,
     Ok (to_ndjson_bytes
           (Failure (id request) INTERNAL_ERROR "Operation timed out"
                    (elapsed_ms start_time end_time)))).

(** [handle_request]; [others] is what the other threads (the timer on the
    main thread, other connections) do to the state while this one waits. *)
Definition handle_request (start_time end_time : float)
    (others : State Service -> State Service)
    (request_data : string) (st : State Service)
    : State Service * outcome string :=
  match handle_request_begin start_time end_time request_data st with
  | (st1, inl reply) => (st1, Ok reply)
  | (st1, inr (request, event)) =>
      handle_request_end start_time end_time request event (others st1)
  end.

End WithService.

End Bridge.

(** ** Routing in the service ([service.py]) *)

Module Service.

(** [method.startswith("blender.")] and [method[8:]] *)
Definition strip_service_prefix (method : string) : string :=
  if String.prefix "blender." method
  then String.substring 8 (String.length method - 8) method
  else method.

(** [s.split(".", 1)]: the part before the first dot and, when there is a
    dot, the part after it. *)
Fixpoint split_at_dot (s : string) : string * option string :=
  match s with
  | EmptyString => (EmptyString, None)
  | String c rest =>
      if Ascii.eqb c (Ascii.ascii_of_nat 46) then (EmptyString, Some rest)
      else (String c (fst (split_at_dot rest)), snd (split_at_dot rest))
  end.

(** The handler objects of a started service. *)
Inductive HandlerName : Type :=
| SceneHandler | ObjectHandler | MeshHandler | MaterialHandler
| RenderHandler | CameraHandler | AnimationHandler | IOHandler
| PhysicsHandler | AIGenerationHandler | GreasePencilHandler.

(** The [handlers] dictionary of [dispatch]. *)
Definition handlers (category : string) : option HandlerName :=
  if String.eqb category "scene" then Some SceneHandler
  else if String.eqb category "object" then Some ObjectHandler
  else if String.eqb category "mesh" then Some MeshHandler
  else if String.eqb category "material" then Some MaterialHandler
  else if String.eqb category "shader" then Some MaterialHandler
  else if String.eqb category "render" then Some RenderHandler
  else if String.eqb category "camera" then Some CameraHandler
  else if String.eqb category "light" then Some CameraHandler
  else if String.eqb category "animation" then Some AnimationHandler
  else if String.eqb category "armature" then Some AnimationHandler
  else if String.eqb category "import" then Some IOHandler
  else if String.eqb category "export" then Some IOHandler
  else if String.eqb category "assets" then Some IOHandler
  else if String.eqb category "physics" then Some PhysicsHandler
  else if String.eqb category "ai" then Some AIGenerationHandler
  else if String.eqb category "gpencil" then Some GreasePencilHandler
  else None.

(** Where [dispatch] sends a call: to one of its own four groups of
    methods with the action, or to a handler object with the category and
    the action. *)
Inductive Target : Type :=
| ToSession (action : string)
| ToJob (action : string)
| ToPython (action : string)
| ToViewport (action : string)
| ToHandler (handler : HandlerName) (category action : string).

(** [dispatch], up to the call it ends in. *)
Definition dispatch_target (method : string) : outcome Target :=
  let parts := split_at_dot (strip_service_prefix method) in
  let category := fst parts in
  let action := match snd parts with Some a => a | None => "" end in
  if String.eqb category "session" then Ok (ToSession action)
  else if String.eqb category "job" then Ok (ToJob action)
  else if String.eqb category "python" then Ok (ToPython action)
  else if String.eqb category "viewport" then Ok (ToViewport action)
  else
    match handlers category with
    | None => Raise (ValueError ("Unknown method category: " ++ category))
    | Some handler => Ok (ToHandler handler category action)
    end.

End Service.

(** * Properties *)

(** ** Facts on dictionaries *)

Module PyDictFacts.
Import PyDict.

(** Two facts on [NoDup] in the form used below. *)
Lemma NoDup_cons_inv {A : Type} (x : A) (l : list A) :
  List.NoDup (x :: l) -> ~ In x l /\ List.NoDup l.
Proof. intros H. inversion H; subst. split; assumption. Qed.

Lemma NoDup_snoc {A : Type} (x : A) (l : list A) :
  List.NoDup l -> ~ In x l -> List.NoDup (l ++ [x])%list.
Proof.
  induction l as [|y l IH]; simpl; intros Hnd Hnot.
  - constructor; [tauto|constructor].
  - apply NoDup_cons_inv in Hnd as [Hy Hnd]. constructor.
    + rewrite in_app_iff. simpl. intros [H|[H|[]]]; [tauto|].
      apply Hnot. now left.
    + apply IH; [assumption|]. intros H. apply Hnot. now right.
Qed.

Section Lemmas.
Context {V : Type}.
Implicit Types (d : dict V) (k : string) (v : V).

Lemma get_set k k' v d :
  get k' (set k v d) = if String.eqb k' k then Some v else get k' d.
Proof.
  induction d as [|[k0 v0] d IH]; simpl.
  - destruct (String.eqb_spec k' k); reflexivity.
  - destruct (String.eqb_spec k k0) as [->|Hk]; simpl.
    + destruct (String.eqb_spec k' k0); reflexivity.
    + rewrite IH. destruct (String.eqb_spec k' k0) as [->|]; [|reflexivity].
      destruct (String.eqb_spec k0 k); congruence.
Qed.

Lemma get_set_eq k v d : get k (set k v d) = Some v.
Proof. rewrite get_set, String.eqb_refl. reflexivity. Qed.

Lemma get_set_ne k k' v d : k' <> k -> get k' (set k v d) = get k' d.
Proof.
  intros H. rewrite get_set. destruct (String.eqb_spec k' k); congruence.
Qed.

Lemma get_del k k' d :
  get k' (del k d) = if String.eqb k' k then None else get k' d.
Proof.
  induction d as [|[k0 v0] d IH]; simpl.
  - destruct (String.eqb k' k); reflexivity.
  - destruct (String.eqb_spec k k0) as [->|Hk]; simpl.
    + rewrite IH. destruct (String.eqb_spec k' k0); reflexivity.
    + rewrite IH. destruct (String.eqb_spec k' k0) as [->|]; [|reflexivity].
      destruct (String.eqb_spec k0 k); congruence.
Qed.

Lemma get_del_eq k d : get k (del k d) = None.
Proof. rewrite get_del, String.eqb_refl. reflexivity. Qed.

Lemma get_del_ne k k' d : k' <> k -> get k' (del k d) = get k' d.
Proof.
  intros H. rewrite get_del. destruct (String.eqb_spec k' k); congruence.
Qed.

Lemma get_None_del k d : get k d = None -> del k d = d.
Proof.
  induction d as [|[k0 v0] d IH]; simpl; [reflexivity|].
  destruct (String.eqb k k0); [discriminate|].
  intros H. rewrite IH; auto.
Qed.

Lemma get_Some_In k v d : get k d = Some v -> In (k, v) d.
Proof.
  induction d as [|[k0 v0] d IH]; simpl; [discriminate|].
  destruct (String.eqb_spec k k0) as [->|Hk].
  - intros [= ->]. now left.
  - intros H. right. auto.
Qed.

Lemma get_None_keys k d : get k d = None <-> ~ In k (keys d).
Proof.
  induction d as [|[k0 v0] d IH]; simpl.
  - tauto.
  - destruct (String.eqb_spec k k0) as [->|Hk].
    + split; [discriminate|]. intros H. exfalso. apply H. now left.
    + rewrite IH. split.
      * intros H [Heq|Hin]; [congruence|tauto].
      * intros H Hin. apply H. now right.
Qed.

Lemma In_get k v d : wf d -> In (k, v) d -> get k d = Some v.
Proof.
  unfold wf. induction d as [|[k0 v0] d IH]; simpl; [tauto|].
  intros Hnd [Heq|Hin].
  - injection Heq as -> ->. now rewrite String.eqb_refl.
  - apply NoDup_cons_inv in Hnd as [Hnot Hnd].
    destruct (String.eqb_spec k k0) as [->|Hk].
    + exfalso. apply Hnot.
      change k0 with (fst (k0, v)). now apply in_map.
    + auto.
Qed.

Lemma keys_set_in k v d :
  In k (keys d) -> keys (set k v d) = keys d.
Proof.
  induction d as [|[k0 v0] d IH]; simpl; [tauto|].
  destruct (String.eqb_spec k k0) as [->|Hk]; simpl; [reflexivity|].
  intros [Heq|Hin]; [congruence|]. now rewrite IH.
Qed.

Lemma keys_set_notin k v d :
  ~ In k (keys d) -> keys (set k v d) = (keys d ++ [k])%list.
Proof.
  induction d as [|[k0 v0] d IH]; simpl; [reflexivity|].
  destruct (String.eqb_spec k k0) as [->|Hk]; simpl.
  - intros H. exfalso. apply H. now left.
  - intros H. rewrite IH; [reflexivity|]. intros Hin. apply H. now right.
Qed.

Lemma In_keys_set k k' v d :
  In k' (keys (set k v d)) <-> k' = k \/ In k' (keys d).
Proof.
  destruct (List.in_dec String.string_dec k (keys d)) as [Hin|Hnot].
  - rewrite keys_set_in by assumption. split; [tauto|].
    intros [->|H]; assumption.
  - rewrite keys_set_notin by assumption. rewrite in_app_iff. simpl.
    split; intros H; intuition congruence.
Qed.

Lemma wf_set k v d : wf d -> wf (set k v d).
Proof.
  unfold wf. intros Hnd.
  destruct (List.in_dec String.string_dec k (keys d)) as [Hin|Hnot].
  - now rewrite keys_set_in.
  - rewrite keys_set_notin by assumption. now apply NoDup_snoc.
Qed.

Lemma In_del k k' v d : In (k', v) (del k d) <-> k' <> k /\ In (k', v) d.
Proof.
  induction d as [|[k0 v0] d IH]; simpl; [tauto|].
  destruct (String.eqb_spec k k0) as [->|Hk]; simpl.
  - rewrite IH. split; [tauto|]. intros [Hne [Heq|Hin]]; [congruence|tauto].
  - rewrite IH. split.
    + intros [Heq|[Hne Hin]]; [|tauto].
      injection Heq as -> ->. split; [congruence|now left].
    + tauto.
Qed.

Lemma In_keys_del k k' d : In k' (keys (del k d)) <-> k' <> k /\ In k' (keys d).
Proof.
  induction d as [|[k0 v0] d IH]; simpl; [tauto|].
  destruct (String.eqb_spec k k0) as [->|Hk]; simpl.
  - rewrite IH. split; [tauto|]. intros [Hne [Heq|Hin]]; [congruence|tauto].
  - rewrite IH. split.
    + intros [Heq|[Hne Hin]]; [|tauto]. subst. split; [congruence|now left].
    + tauto.
Qed.

Lemma wf_del k d : wf d -> wf (del k d).
Proof.
  unfold wf. induction d as [|[k0 v0] d IH]; simpl; [auto|].
  intros Hnd. apply NoDup_cons_inv in Hnd as [Hnot Hnd].
  destruct (String.eqb k k0); simpl; [auto|].
  constructor; [|auto].
  intros Hin. apply Hnot. apply In_keys_del in Hin. tauto.
Qed.

Lemma length_del_present k v d :
  wf d -> get k d = Some v -> S (length (del k d)) = length d.
Proof.
  unfold wf. induction d as [|[k0 v0] d IH]; simpl; [discriminate|].
  intros Hnd. apply NoDup_cons_inv in Hnd as [Hnot Hnd].
  destruct (String.eqb_spec k k0) as [->|Hk].
  - intros _. rewrite get_None_del; [reflexivity|].
    now apply get_None_keys.
  - intros H. simpl. f_equal. auto.
Qed.

Lemma contains_true k d : contains k d = true <-> exists v, get k d = Some v.
Proof.
  unfold contains. destruct (get k d) as [v|].
  - split; [eauto|reflexivity].
  - split; [discriminate|]. intros [v H]. discriminate.
Qed.

Lemma In_set k v k' v' d :
  In (k', v') (set k v d) -> (k' = k /\ v' = v) \/ In (k', v') d.
Proof.
  induction d as [|[k0 v0] d IH]; simpl.
  - intros [[= <- <-]|[]]. now left.
  - destruct (String.eqb_spec k k0) as [->|Hk]; simpl.
    + intros [[= <- <-]|Hin]; [now left|right; now right].
    + intros [Heq|Hin]; [right; now left|].
      destruct (IH Hin) as [H|H]; [now left|right; now right].
Qed.

Lemma In_set_same k v d : In (k, v) (set k v d).
Proof.
  induction d as [|[k0 v0] d IH]; simpl; [now left|].
  destruct (String.eqb k k0); simpl; [now left|now right].
Qed.

Lemma In_set_other k v k' v' d :
  k' <> k -> In (k', v') d -> In (k', v') (set k v d).
Proof.
  intros Hne. induction d as [|[k0 v0] d IH]; simpl; [tauto|].
  destruct (String.eqb_spec k k0) as [->|Hk]; simpl.
  - intros [[= <- <-]|Hin]; [congruence|now right].
  - intros [Heq|Hin]; [now left|right; auto].
Qed.

Lemma In_values v d : In v (values d) <-> exists k, In (k, v) d.
Proof.
  unfold values. rewrite in_map_iff. split.
  - intros ([k v'] & Heq & Hin). simpl in Heq. subst v'. eauto.
  - intros [k Hin]. exists (k, v). now split.
Qed.

Lemma In_keys k d : In k (keys d) <-> exists v, In (k, v) d.
Proof.
  unfold keys. rewrite in_map_iff. split.
  - intros ([k' v] & Heq & Hin). simpl in Heq. subst k'. eauto.
  - intros [v Hin]. exists (k, v). now split.
Qed.

End Lemmas.

End PyDictFacts.

(** ** The job queue *)

Module JobsFacts.
Import PyDict PyDictFacts Jobs.

Arguments _save_jobs : simpl never.

Lemma jobs_save q : _jobs (_save_jobs q) = _jobs q.
Proof. reflexivity. Qed.

Lemma handlers_save q : _handlers (_save_jobs q) = _handlers q.
Proof. reflexivity. Qed.

Lemma queue_save q : _queue (_save_jobs q) = _queue q.
Proof. reflexivity. Qed.

Lemma JobStatus_eqb_eq a b : JobStatus_eqb a b = true <-> a = b.
Proof. destruct a, b; simpl; split; congruence. Qed.


(** *** cancel *)

Section Cancel.
Variable isoformat : Z -> string.

Lemma cancel_unknown now job_id q :
  get_job job_id q = None -> cancel isoformat now job_id q = (q, false).
Proof. unfold get_job, cancel. intros ->. reflexivity. Qed.

Lemma cancel_not_pending now job_id q job :
  get_job job_id q = Some job -> status job <> PENDING ->
  cancel isoformat now job_id q = (q, false).
Proof.
  unfold get_job, cancel. intros -> Hs.
  destruct (JobStatus_eqb (status job) PENDING) eqn:E; [|reflexivity].
  apply JobStatus_eqb_eq in E. contradiction.
Qed.

Lemma cancel_pending now job_id q job :
  get_job job_id q = Some job -> status job = PENDING ->
  cancel isoformat now job_id q =
    (_save_jobs
       (with_handlers (del job_id (_handlers q))
          (with_jobs
             (set job_id
                (set_completed_at (Some (isoformat now))
                   (set_status CANCELLED job))
                (_jobs q))
             q)),
     true).
Proof.
  unfold get_job, cancel. intros -> Hs. rewrite Hs. reflexivity.
Qed.

(** C3. [cancel(job_id)] returns true exactly when the job exists and is
    Pending.  When it returns true the job is stored with status Cancelled
    and [completed_at] set to the current time, each of its other fields as
    before, and no handler is stored for it any more.  When it returns
    false the queue object, and so its job table, is unchanged. *)
Theorem cancel_true_iff_pending now job_id q :
  (snd (cancel isoformat now job_id q) = true <->
     exists job, get_job job_id q = Some job /\ status job = PENDING)
  /\ (snd (cancel isoformat now job_id q) = true ->
        exists job job',
          get_job job_id q = Some job
          /\ get_job job_id (fst (cancel isoformat now job_id q)) = Some job'
          /\ status job' = CANCELLED
          /\ completed_at job' = Some (isoformat now)
          /\ job' = mkJob (id job) (job_type job) CANCELLED (created_at job)
                          (started_at job) (Some (isoformat now))
                          (progress job) (progress_message job) (params job)
                          (result job) (error job) (session_id job)
          /\ get job_id (_handlers (fst (cancel isoformat now job_id q))) = None)
  /\ (snd (cancel isoformat now job_id q) = false ->
        fst (cancel isoformat now job_id q) = q).
Proof.
  destruct (get_job job_id q) as [job|] eqn:Hget.
  - destruct (JobStatus_eqb (status job) PENDING) eqn:E.
    + apply JobStatus_eqb_eq in E.
      rewrite (cancel_pending now job_id q job Hget E). simpl.
      repeat split; eauto; try discriminate.
      intros _. exists job. eexists. split; [reflexivity|]. split.
      * unfold get_job. simpl. apply get_set_eq.
      * repeat split. apply get_del_eq.
    + assert (Hs : status job <> PENDING).
      { intros H. apply JobStatus_eqb_eq in H. congruence. }
      rewrite (cancel_not_pending now job_id q job Hget Hs). simpl.
      repeat split; try discriminate.
      intros (job' & [= <-] & H). contradiction.
  - rewrite (cancel_unknown now job_id q Hget). simpl.
    repeat split; try discriminate.
    intros (job' & H & _). discriminate.
Qed.

End Cancel.

(** *** The progress callback *)

(** [0.0 <= p <= 1.0] *)
Definition in_unit_interval (p : float) : bool :=
  SFleb float_0 p && SFleb p float_1.

(** The value [progress_callback] stores. *)
Definition clamp (p : float) : float := py_min (py_max p float_0) float_1.

Lemma SFcompare_antisym a b c :
  SFcompare a b = Some c -> SFcompare b a = Some (CompOpp c).
Proof.
  destruct a as [sa|sa| |sa ma ea], b as [sb|sb| |sb mb eb]; simpl;
    try discriminate;
    try (destruct sa; intros [= <-]; reflexivity);
    try (destruct sb; intros [= <-]; reflexivity);
    try (destruct sa, sb; intros [= <-]; reflexivity).
  intros [= <-]. f_equal.
  change (PosDef.Pos.compare_cont Eq mb ma) with (mb ?= ma)%positive.
  change (PosDef.Pos.compare_cont Eq ma mb) with (ma ?= mb)%positive.
  rewrite (Z.compare_antisym ea eb), (Pos.compare_antisym ma mb).
  destruct sa, sb, (ea ?= eb)%Z, (ma ?= mb)%positive; reflexivity.
Qed.

Lemma SFcompare_defined a b :
  a <> S754_nan -> b <> S754_nan -> exists c, SFcompare a b = Some c.
Proof.
  destruct a as [sa|sa| |sa ma ea], b as [sb|sb| |sb mb eb]; simpl;
    intros Ha Hb; try congruence; eauto.
Qed.

Lemma SFleb_of_not_ltb a b :
  a <> S754_nan -> b <> S754_nan -> SFltb a b = false -> SFleb b a = true.
Proof.
  intros Ha Hb. unfold SFltb, SFleb.
  destruct (SFcompare_defined a b Ha Hb) as [c Hc].
  rewrite Hc, (SFcompare_antisym a b c Hc).
  destruct c; simpl; congruence.
Qed.

Lemma float_0_not_nan : float_0 <> S754_nan.
Proof. discriminate. Qed.

Lemma float_1_not_nan : float_1 <> S754_nan.
Proof. discriminate. Qed.

(** For every float but NaN the stored value lies in [0, 1]. *)
Lemma clamp_in_unit_interval p :
  p <> S754_nan -> in_unit_interval (clamp p) = true.
Proof.
  intros Hp. unfold clamp, py_max.
  destruct (SFltb p float_0) eqn:E0.
  - reflexivity.
  - unfold py_min. destruct (SFltb float_1 p) eqn:E1.
    + reflexivity.
    + unfold in_unit_interval.
      rewrite (SFleb_of_not_ltb p float_0 Hp float_0_not_nan E0).
      rewrite (SFleb_of_not_ltb float_1 p float_1_not_nan Hp E1).
      reflexivity.
Qed.

(** NaN passes both comparisons of the clamp unchanged. *)
Lemma clamp_nan : clamp S754_nan = S754_nan.
Proof. reflexivity. Qed.

Section Progress.
Variable isoformat : Z -> string.

(** The callback stores [min(max(p, 0.0), 1.0)] on a job that is in the
    table, and does nothing otherwise. *)
Lemma progress_callback_stores_clamp job_id p message q job :
  get_job job_id q = Some job ->
  get_job job_id (progress_callback job_id p message q) =
    Some (set_progress_message message (set_progress (clamp p) job)).
Proof.
  unfold get_job, progress_callback, contains, update. intros H.
  rewrite H. simpl. apply get_set_eq.
Qed.

Lemma progress_callback_absent job_id p message q :
  get_job job_id q = None -> progress_callback job_id p message q = q.
Proof.
  unfold get_job, progress_callback, contains. intros ->. reflexivity.
Qed.

End Progress.

(** A handler that reports a NaN progress and then raises. *)
Definition nan_handler : Handler :=
  fun _ => mkHandlerRun [(S754_nan, "n/a")] (inr "boom").

(** C10. Evaluation at [progress = float('nan')]: a job is submitted to a
    fresh queue and processed by a worker; its handler calls
    [progress_callback(nan, "n/a")] and then raises.  The job ends Failed
    with the stored progress NaN, which is not within [0, 1]. *)
Theorem progress_nan_not_clamped :
  let iso := fun _ : Z => "2026-01-17T10:00:00+00:00" in
  let q1 := fst (submit iso "job-1" 0 RENDER_IMAGE [] nan_handler None
                   (init NoFile)) in
  let q2 := _process_job iso 1 2 "job-1" q1 in
  option_map status (get_job "job-1" q2) = Some FAILED
  /\ option_map progress (get_job "job-1" q2) = Some S754_nan
  /\ in_unit_interval S754_nan = false.
Proof. vm_compute. repeat split; reflexivity. Qed.

(** *** A worker meets a cancelled job *)

Section CancelThenProcess.
Variable isoformat : Z -> string.

Lemma submit_job job_id now job_type job_params handler sid q :
  get_job job_id (fst (submit isoformat job_id now job_type job_params handler sid q))
  = Some (mkJob job_id job_type PENDING (isoformat now) None None float_0 ""
                job_params None None sid).
Proof. unfold get_job, submit. simpl. apply get_set_eq. Qed.

(** A job that is in the table without a handler is marked Failed by the
    worker, whatever its status was. *)
Lemma process_without_handler now now' job_id q job :
  get_job job_id q = Some job ->
  get job_id (_handlers q) = None ->
  get_job job_id (_process_job isoformat now now' job_id q) =
    Some (set_error (Some "No handler registered") (set_status FAILED job)).
Proof.
  unfold get_job, _process_job, _process_job_claim. intros -> ->.
  simpl. apply get_set_eq.
Qed.

(** C1. Evaluation of submit, cancel, and then the worker taking the id
    from the queue: cancel succeeds and the job is Cancelled, a terminal
    status; the worker then overwrites the status with Failed and sets the
    error field. *)
Theorem cancelled_job_becomes_failed
    job_id t0 t1 t2 t3 job_type job_params handler sid q :
  let q1 := fst (submit isoformat job_id t0 job_type job_params handler sid q) in
  let q2 := fst (cancel isoformat t1 job_id q1) in
  let q3 := _process_job isoformat t2 t3 job_id q2 in
  snd (cancel isoformat t1 job_id q1) = true
  /\ option_map status (get_job job_id q2) = Some CANCELLED
  /\ In job_id (_queue q2)
  /\ option_map status (get_job job_id q3) = Some FAILED
  /\ option_map error (get_job job_id q3) = Some (Some "No handler registered").
Proof.
  intros q1 q2 q3.
  pose proof (submit_job job_id t0 job_type job_params handler sid q) as H1.
  fold q1 in H1.
  pose proof (cancel_pending isoformat t1 job_id q1 _ H1 eq_refl) as Hc.
  assert (H2 : get_job job_id q2 =
                 Some (set_completed_at (Some (isoformat t1))
                         (set_status CANCELLED
                            (mkJob job_id job_type PENDING (isoformat t0) None
                                   None float_0 "" job_params None None sid)))).
  { unfold q2. rewrite Hc. unfold get_job. simpl. apply get_set_eq. }
  assert (Hh : get job_id (_handlers q2) = None).
  { unfold q2. rewrite Hc. simpl. apply get_del_eq. }
  pose proof (process_without_handler t2 t3 job_id q2 _ H2 Hh) as H3.
  fold q3 in H3.
  split; [rewrite Hc; reflexivity|].
  split; [rewrite H2; reflexivity|].
  split.
  { unfold q2. rewrite Hc. simpl. unfold q1, submit. simpl.
    apply in_or_app. right. now left. }
  split; rewrite H3; reflexivity.
Qed.

End CancelThenProcess.

(** *** cleanup *)

Section Cleanup.
Variable isoformat : Z -> string.

(** The keys the loop of [cleanup] deletes, in the order of the snapshot. *)
Definition expired_keys (cutoff_iso : string) (l : dict Job) : list string :=
  map fst (List.filter (fun item => expired cutoff_iso (snd item)) l).

Definition del_all (ks : list string) (d : dict Job) : dict Job :=
  fold_left (fun acc k => del k acc) ks d.

Lemma expired_iff cutoff_iso job :
  expired cutoff_iso job = true <->
  is_terminal (status job) = true
  /\ exists t, completed_at job = Some t /\ t <> ""
               /\ String.ltb t cutoff_iso = true.
Proof.
  unfold expired. rewrite andb_true_iff. split.
  - intros [Ht Hc]. split; [assumption|].
    destruct (completed_at job) as [t|]; [|discriminate].
    apply andb_true_iff in Hc as [Hne Hlt]. exists t.
    split; [reflexivity|]. split; [|assumption].
    intros ->. discriminate.
  - intros [Ht (t & -> & Hne & Hlt)]. split; [assumption|].
    rewrite Hlt, andb_true_r.
    destruct (String.eqb_spec t ""); [contradiction|reflexivity].
Qed.

Lemma cleanup_fold cutoff_iso l d n :
  fold_left (cleanup_step cutoff_iso) l (d, n) =
    (del_all (expired_keys cutoff_iso l) d,
     (n + length (expired_keys cutoff_iso l))%nat).
Proof.
  revert d n. induction l as [|[k job] l IH]; intros d n; simpl.
  - f_equal. lia.
  - unfold cleanup_step at 2, expired_keys. simpl.
    destruct (expired cutoff_iso job); simpl.
    + rewrite IH. f_equal. unfold expired_keys. lia.
    + apply IH.
Qed.

Lemma get_del_all_None k ks d : get k d = None -> get k (del_all ks d) = None.
Proof.
  revert d. induction ks as [|k0 ks IH]; intros d H; simpl; [assumption|].
  apply IH. rewrite get_del. destruct (String.eqb k k0); auto.
Qed.

Lemma get_del_all_in k ks d : In k ks -> get k (del_all ks d) = None.
Proof.
  revert d. induction ks as [|k0 ks IH]; intros d; simpl; [tauto|].
  intros [->|Hin]; [|auto].
  apply get_del_all_None, get_del_eq.
Qed.

Lemma get_del_all_notin k ks d : ~ In k ks -> get k (del_all ks d) = get k d.
Proof.
  revert d. induction ks as [|k0 ks IH]; intros d H; simpl; [reflexivity|].
  rewrite IH by (intros Hin; apply H; now right).
  apply get_del_ne. intros ->. apply H. now left.
Qed.

Lemma In_expired_keys cutoff_iso k d :
  wf d ->
  (In k (expired_keys cutoff_iso d) <->
   exists job, get k d = Some job /\ expired cutoff_iso job = true).
Proof.
  intros Hwf. unfold expired_keys. rewrite in_map_iff. split.
  - intros ([k' job] & Hk & Hin). simpl in Hk. subst k'.
    apply filter_In in Hin as [Hin He]. exists job.
    split; [now apply In_get|assumption].
  - intros (job & Hget & He). exists (k, job). split; [reflexivity|].
    apply filter_In. split; [now apply get_Some_In|assumption].
Qed.

Lemma length_del_all ks d :
  wf d -> List.NoDup ks -> (forall k, In k ks -> In k (keys d)) ->
  (length (del_all ks d) + length ks = length d)%nat.
Proof.
  revert d. induction ks as [|k0 ks IH]; intros d Hwf Hnd Hsub; simpl.
  - lia.
  - apply NoDup_cons_inv in Hnd as [Hnot Hnd].
    destruct (get k0 d) as [v|] eqn:Hget.
    + pose proof (length_del_present k0 v d Hwf Hget) as Hlen.
      assert (Hrec : (length (del_all ks (del k0 d)) + length ks
                      = length (del k0 d))%nat).
      { apply IH.
        - now apply wf_del.
        - assumption.
        - intros k Hin. apply In_keys_del. split.
          + intros ->. contradiction.
          + apply Hsub. now right. }
      change (del_all (k0 :: ks) d) with (del_all ks (del k0 d)).
      lia.
    + exfalso. apply get_None_keys in Hget. apply Hget, Hsub. now left.
Qed.

Lemma NoDup_expired_keys cutoff_iso d :
  wf d -> List.NoDup (expired_keys cutoff_iso d).
Proof.
  unfold wf, expired_keys, keys.
  induction d as [|[k job] d IH]; simpl; intros Hnd; [constructor|].
  apply NoDup_cons_inv in Hnd as [Hnot Hnd].
  destruct (expired cutoff_iso job); simpl; [|auto].
  constructor; [|auto].
  intros Hin. apply Hnot. apply in_map_iff in Hin as (x & Hx & Hin).
  apply filter_In in Hin as [Hin _]. apply in_map_iff. eauto.
Qed.

Lemma expired_keys_sub cutoff_iso d k :
  In k (expired_keys cutoff_iso d) -> In k (keys d).
Proof.
  unfold expired_keys, keys. rewrite !in_map_iff.
  intros (x & Hx & Hin). apply filter_In in Hin as [Hin _]. eauto.
Qed.

Lemma cleanup_raises now max_age_hours q :
  timedelta_ok max_age_hours = false
  \/ datetime_ok (now - max_age_hours * 3600000000)%Z = false ->
  cleanup isoformat now max_age_hours q = (q, Raise OverflowError).
Proof.
  unfold cleanup. intros [H|H].
  - rewrite H. reflexivity.
  - rewrite H. destruct (timedelta_ok max_age_hours); reflexivity.
Qed.

Lemma cleanup_returns now max_age_hours q :
  timedelta_ok max_age_hours = true ->
  datetime_ok (now - max_age_hours * 3600000000)%Z = true ->
  let cutoff_iso := isoformat (now - max_age_hours * 3600000000) in
  let jobs := del_all (expired_keys cutoff_iso (_jobs q)) (_jobs q) in
  let removed := length (expired_keys cutoff_iso (_jobs q)) in
  cleanup isoformat now max_age_hours q =
    (if (0 <? removed)%nat then _save_jobs (with_jobs jobs q)
     else with_jobs jobs q,
     Ok removed).
Proof.
  intros Ht Hd. unfold cleanup. rewrite Ht, Hd. simpl.
  rewrite cleanup_fold. reflexivity.
Qed.

Lemma cleanup_jobs now max_age_hours q :
  timedelta_ok max_age_hours = true ->
  datetime_ok (now - max_age_hours * 3600000000)%Z = true ->
  _jobs (fst (cleanup isoformat now max_age_hours q)) =
    del_all (expired_keys (isoformat (now - max_age_hours * 3600000000))
               (_jobs q))
            (_jobs q)
  /\ snd (cleanup isoformat now max_age_hours q) =
       Ok (length (expired_keys (isoformat (now - max_age_hours * 3600000000))
                     (_jobs q))).
Proof.
  intros Ht Hd. rewrite (cleanup_returns now max_age_hours q Ht Hd). simpl.
  split; [|reflexivity].
  destruct (length _); reflexivity.
Qed.

(** Whether it returns or raises, the table [cleanup] leaves is the old one
    without some of its keys. *)
Lemma cleanup_table now max_age_hours q :
  exists ks, _jobs (fst (cleanup isoformat now max_age_hours q)) =
               del_all ks (_jobs q).
Proof.
  destruct (timedelta_ok max_age_hours) eqn:Ht.
  - destruct (datetime_ok (now - max_age_hours * 3600000000)) eqn:Hd.
    + eexists. apply (cleanup_jobs now max_age_hours q Ht Hd).
    + exists []. rewrite cleanup_raises by now right. reflexivity.
  - exists []. rewrite cleanup_raises by now left. reflexivity.
Qed.

(** C6. When now minus [max_age_hours] hours is a datetime (and the
    duration a [timedelta]), [cleanup] on a job table (a dictionary, so
    with unique keys) returns a count, and: it removes a job exactly when
    its status is Completed, Failed or Cancelled and its [completed_at] is
    set and, as an ISO string, smaller than that of the cutoff; all other
    jobs, so every Pending and Running one whatever its age, stay as they
    are; and the count is the number of jobs that left the table.
    Otherwise [cleanup] raises [OverflowError] and the queue is as it
    was. *)
Theorem cleanup_removes_old_terminal now max_age_hours q :
  wf (_jobs q) ->
  let cutoff := (now - max_age_hours * 3600000000)%Z in
  let cutoff_iso := isoformat cutoff in
  let q' := fst (cleanup isoformat now max_age_hours q) in
  (timedelta_ok max_age_hours = true -> datetime_ok cutoff = true ->
     exists removed,
       snd (cleanup isoformat now max_age_hours q) = Ok removed
       /\ (forall job_id job,
             get_job job_id q = Some job ->
             (get_job job_id q' = None <->
              is_terminal (status job) = true
              /\ exists t, completed_at job = Some t /\ t <> ""
                           /\ String.ltb t cutoff_iso = true)
             /\ (get_job job_id q' = None \/ get_job job_id q' = Some job))
       /\ (forall job_id, get_job job_id q = None -> get_job job_id q' = None)
       /\ (length (_jobs q') + removed = length (_jobs q))%nat
       /\ (forall job_id job,
             get_job job_id q = Some job ->
             status job = PENDING \/ status job = RUNNING ->
             get_job job_id q' = Some job))
  /\ (timedelta_ok max_age_hours = false \/ datetime_ok cutoff = false ->
       cleanup isoformat now max_age_hours q = (q, Raise OverflowError)).
Proof.
  intros Hwf cutoff cutoff_iso q'. split; [|apply cleanup_raises].
  intros Ht Hd.
  destruct (cleanup_jobs now max_age_hours q Ht Hd) as [Hj Hn].
  fold cutoff in Hj, Hn. fold cutoff_iso in Hj, Hn. fold q' in Hj.
  exists (length (expired_keys cutoff_iso (_jobs q))).
  split; [exact Hn|].
  assert (Hcase : forall job_id job, get_job job_id q = Some job ->
            get_job job_id q' =
              if expired cutoff_iso job then None else Some job).
  { intros job_id job Hget. unfold get_job in *. rewrite Hj.
    destruct (expired cutoff_iso job) eqn:He.
    - apply get_del_all_in. apply In_expired_keys; eauto.
    - rewrite get_del_all_notin; [assumption|].
      intros Hin. apply In_expired_keys in Hin as (job' & Hg & He'); auto.
      congruence. }
  split; [|split; [|split]].
  - intros job_id job Hget. rewrite (Hcase _ _ Hget).
    rewrite <- expired_iff.
    destruct (expired cutoff_iso job); split; auto; split; congruence.
  - intros job_id Hget. unfold get_job in *. rewrite Hj.
    now apply get_del_all_None.
  - rewrite Hj. apply length_del_all.
    + assumption.
    + now apply NoDup_expired_keys.
    + intros k. apply expired_keys_sub.
  - intros job_id job Hget Hs. rewrite (Hcase _ _ Hget).
    unfold expired. destruct Hs as [-> | ->]; reflexivity.
Qed.

End Cleanup.

(** A table with an old completed job, a recent completed job and an old
    pending job; the cutoff is 2026-01-16 10:00 UTC. *)
Definition demo_iso (t : Z) : string := "2026-01-16T10:00:00+00:00".

Definition demo_job (job_id : string) (s : JobStatus) (done : option string)
    : Job :=
  mkJob job_id RENDER_IMAGE s "2026-01-01T08:00:00+00:00" None done float_0 ""
        [] None None None.

Definition demo_queue : JobQueue :=
  mkJobQueue
    [("old-done", demo_job "old-done" COMPLETED (Some "2026-01-10T09:30:00.250000+00:00"));
     ("new-done", demo_job "new-done" COMPLETED (Some "2026-01-17T09:30:00+00:00"));
     ("old-pending", demo_job "old-pending" PENDING None)]
    [] ["old-pending"] NoFile.

(** 2026-01-17 10:00 UTC, in microseconds from the epoch. *)
Definition demo_now : Z := 1768644000000000%Z.

Lemma cleanup_removes_old_terminal_witness :
  wf (_jobs demo_queue)
  /\ timedelta_ok 24%Z = true
  /\ datetime_ok (demo_now - 24 * 3600000000)%Z = true
  /\ snd (cleanup demo_iso demo_now 24%Z demo_queue) = Ok 1%nat
  /\ get_job "old-done" (fst (cleanup demo_iso demo_now 24%Z demo_queue)) = None
  /\ get_job "new-done" (fst (cleanup demo_iso demo_now 24%Z demo_queue)) =
       Some (demo_job "new-done" COMPLETED (Some "2026-01-17T09:30:00+00:00"))
  /\ get_job "old-pending" (fst (cleanup demo_iso demo_now 24%Z demo_queue)) =
       Some (demo_job "old-pending" PENDING None)
  /\ length (_jobs (fst (cleanup demo_iso demo_now 24%Z demo_queue))) = 2%nat.
Proof.
  assert (Hwf : wf (_jobs demo_queue)).
  { unfold wf. simpl. repeat constructor; simpl; intuition discriminate. }
  destruct (cleanup_removes_old_terminal demo_iso demo_now 24%Z demo_queue Hwf)
    as [Hret _].
  destruct (Hret eq_refl eq_refl) as (removed & Hsnd & Hexp & _ & Hlen & Hkeep).
  assert (Hold : get_job "old-done"
                   (fst (cleanup demo_iso demo_now 24%Z demo_queue)) = None).
  { apply (Hexp "old-done" _ eq_refl). split; [reflexivity|].
    eexists. split; [reflexivity|]. split; [discriminate|reflexivity]. }
  assert (Hnew : get_job "new-done"
                   (fst (cleanup demo_iso demo_now 24%Z demo_queue)) =
                 Some (demo_job "new-done" COMPLETED
                         (Some "2026-01-17T09:30:00+00:00"))).
  { destruct (Hexp "new-done" _ eq_refl) as [Hiff [Hnone|Hsome]];
      [|exact Hsome].
    apply Hiff in Hnone as (_ & t & [= <-] & _ & Hlt). discriminate Hlt. }
  assert (Hpend : get_job "old-pending"
                    (fst (cleanup demo_iso demo_now 24%Z demo_queue)) =
                  Some (demo_job "old-pending" PENDING None)).
  { apply (Hkeep "old-pending" _ eq_refl). now left. }
  assert (Hsize : length (_jobs (fst (cleanup demo_iso demo_now 24%Z demo_queue)))
                  = 2%nat).
  { reflexivity. }
  assert (Hcount : snd (cleanup demo_iso demo_now 24%Z demo_queue) = Ok 1%nat).
  { rewrite Hsnd. f_equal. rewrite Hsize in Hlen. simpl in Hlen. lia. }
  exact (conj Hwf (conj eq_refl (conj eq_refl
           (conj Hcount (conj Hold (conj Hnew (conj Hpend Hsize))))))).
Defined.

(** C6, the input on which the unamended claim fails: with an age of
    [10^10] hours the cutoff lies before year 1, the subtraction raises
    [OverflowError], and [cleanup] returns no count. *)
Lemma cleanup_overflows_on_huge_age :
  cleanup demo_iso demo_now 10000000000%Z demo_queue =
    (demo_queue, Raise OverflowError)
  /\ ~ (forall max_age_hours, exists removed,
          snd (cleanup demo_iso demo_now max_age_hours demo_queue) = Ok removed).
Proof.
  split; [reflexivity|].
  intros H. destruct (H 10000000000%Z) as [removed Hr]. discriminate Hr.
Qed.

(** C3 on a job that has just been submitted: [cancel] returns true, the
    job is Cancelled with [completed_at] set and its handler is gone; a
    second [cancel] returns false. *)
Definition demo_submitted : JobQueue :=
  fst (submit demo_iso "job-1" 0 RENDER_IMAGE [("output", AStr "/tmp/r.png")]
         nan_handler (Some "a1b2c3d4") (init NoFile)).

Lemma cancel_true_iff_pending_witness :
  snd (cancel demo_iso 5 "job-1" demo_submitted) = true
  /\ get_job "job-1" (fst (cancel demo_iso 5 "job-1" demo_submitted)) =
       Some (mkJob "job-1" RENDER_IMAGE CANCELLED "2026-01-16T10:00:00+00:00"
                   None (Some "2026-01-16T10:00:00+00:00") float_0 ""
                   [("output", AStr "/tmp/r.png")] None None (Some "a1b2c3d4"))
  /\ contains "job-1" (_handlers demo_submitted) = true
  /\ get "job-1" (_handlers (fst (cancel demo_iso 5 "job-1" demo_submitted)))
     = None
  /\ snd (cancel demo_iso 6 "job-1"
            (fst (cancel demo_iso 5 "job-1" demo_submitted))) = false.
Proof.
  destruct (cancel_true_iff_pending demo_iso 5 "job-1" demo_submitted)
    as (Hiff & Heff & _).
  assert (Ht : snd (cancel demo_iso 5 "job-1" demo_submitted) = true).
  { apply Hiff. eexists. split; reflexivity. }
  destruct (Heff Ht) as (job & job' & Hg & Hg' & _ & _ & Heq & Hh).
  injection Hg as <-. subst job'.
  split; [exact Ht|]. split; [exact Hg'|]. split; [reflexivity|].
  split; [exact Hh|].
  destruct (cancel_true_iff_pending demo_iso 6 "job-1"
              (fst (cancel demo_iso 5 "job-1" demo_submitted)))
    as (Hiff2 & _).
  destruct (snd (cancel demo_iso 6 "job-1"
                   (fst (cancel demo_iso 5 "job-1" demo_submitted))));
    [|reflexivity].
  destruct (proj1 Hiff2 eq_refl) as (j & Hj & Hs).
  rewrite Hg' in Hj. injection Hj as <-. discriminate Hs.
Defined.

(** *** Loading the persisted log *)

(** The records [_load_jobs] gets to: those before the first one that
    [from_dict] rejects. *)
Fixpoint loaded_records (data : list JobData) : list Job :=
  match data with
  | [] => []
  | job_data :: rest =>
      match from_dict job_data with
      | Some job => job :: loaded_records rest
      | None => []
      end
  end.

(** The job as it is stored after the loop body. *)
Definition requeued (job : Job) : Job :=
  if is_unfinished (status job)
  then set_progress float_0 (set_status PENDING job)
  else job.

Definition store_all (js : list Job) (d : dict Job) : dict Job :=
  fold_left (fun acc j => set (id j) (requeued j) acc) js d.

Lemma set_set {V : Type} k (v v' : V) (d : dict V) :
  set k v' (set k v d) = set k v' d.
Proof.
  induction d as [|[k0 v0] d IH]; simpl.
  - now rewrite String.eqb_refl.
  - destruct (String.eqb k k0) eqn:E; simpl.
    + now rewrite String.eqb_refl.
    + now rewrite E, IH.
Qed.

Lemma load_loop_unfold data q :
  load_loop data q =
    mkJobQueue
      (store_all (loaded_records data) (_jobs q))
      (_handlers q)
      (_queue q
         ++ map id (List.filter (fun j => is_unfinished (status j))
                      (loaded_records data)))%list
      (_jobs_file q).
Proof.
  revert q. induction data as [|job_data rest IH]; intros q; simpl.
  - rewrite app_nil_r. destruct q; reflexivity.
  - destruct (from_dict job_data) as [job|]; simpl.
    + unfold requeued at 1.
      destruct (is_unfinished (status job)) eqn:E; rewrite IH; simpl.
      * rewrite set_set, <- app_assoc. reflexivity.
      * reflexivity.
    + rewrite app_nil_r. destruct q; reflexivity.
Qed.

Lemma get_store_all_other k js d :
  ~ In k (map id js) -> get k (store_all js d) = get k d.
Proof.
  revert d. induction js as [|j js IH]; intros d H; simpl; [reflexivity|].
  rewrite IH by (intros Hin; apply H; now right).
  apply get_set_ne. intros ->. apply H. now left.
Qed.

Lemma get_store_all job js d :
  List.NoDup (map id js) -> In job js ->
  get (id job) (store_all js d) = Some (requeued job).
Proof.
  revert d. induction js as [|j js IH]; intros d Hnd Hin; simpl in *; [tauto|].
  apply NoDup_cons_inv in Hnd as [Hnot Hnd].
  destruct Hin as [->|Hin].
  - rewrite get_store_all_other by assumption. apply get_set_eq.
  - now apply IH.
Qed.

Lemma NoDup_map_inj {A B : Type} (f : A -> B) (l : list A) a b :
  List.NoDup (map f l) -> In a l -> In b l -> f a = f b -> a = b.
Proof.
  induction l as [|x l IH]; simpl; [tauto|].
  intros Hnd Ha Hb Heq. apply NoDup_cons_inv in Hnd as [Hnot Hnd].
  destruct Ha as [->|Ha], Hb as [->|Hb]; auto.
  - exfalso. apply Hnot. rewrite Heq. now apply in_map.
  - exfalso. apply Hnot. rewrite <- Heq. now apply in_map.
Qed.


(** The log of the restart scenario: one job left Running, one left
    Pending, one Completed. *)
Definition demo_data (job_id status : string) (p : float) : JobData :=
  mkJobData job_id "render_image" status "2026-01-01T08:00:00+00:00" None None
            p "" [] None None None.

Definition demo_log : list JobData :=
  [demo_data "a" "running" float_1;
   demo_data "b" "pending" float_0;
   demo_data "c" "completed" float_1].


(** *** What holds of every table the queue builds *)

(** The table is a dictionary and every job is stored under its own id. *)
Definition jobs_ok (d : dict Job) : Prop :=
  wf d /\ forall k j, In (k, j) d -> id j = k.

Definition table_ok (q : JobQueue) : Prop := jobs_ok (_jobs q).

Lemma table_ok_jobs q q' : _jobs q' = _jobs q -> table_ok q -> table_ok q'.
Proof. unfold table_ok. intros ->. auto. Qed.

Lemma table_ok_store k j q :
  id j = k -> table_ok q -> table_ok (with_jobs (set k j (_jobs q)) q).
Proof.
  intros Hid [Hwf Hkey]. split; simpl.
  - now apply wf_set.
  - intros k' j' Hin. apply In_set in Hin as [[-> ->]|Hin]; auto.
Qed.

Lemma table_ok_saved_store k j q :
  id j = k -> table_ok q ->
  table_ok (_save_jobs (with_jobs (set k j (_jobs q)) q)).
Proof.
  intros Hid Hok.
  apply (table_ok_jobs (with_jobs (set k j (_jobs q)) q)); [reflexivity|].
  now apply table_ok_store.
Qed.

Lemma table_ok_update job_id f q :
  (forall j, id (f j) = id j) -> table_ok q -> table_ok (update job_id f q).
Proof.
  intros Hf Hok. unfold update.
  destruct (get job_id (_jobs q)) as [job|] eqn:Hget; [|assumption].
  apply table_ok_store; [|assumption].
  rewrite Hf. destruct Hok as [_ Hkey]. apply Hkey. now apply get_Some_In.
Qed.

Lemma jobs_ok_del_all ks d : jobs_ok d -> jobs_ok (del_all ks d).
Proof.
  revert d. induction ks as [|k ks IH]; intros d Hok; simpl; [assumption|].
  apply IH. destruct Hok as [Hwf Hkey]. split.
  - now apply wf_del.
  - intros k' j' Hin. apply In_del in Hin as [_ Hin]. auto.
Qed.

Lemma table_ok_load data q : table_ok q -> table_ok (load_loop data q).
Proof.
  revert q. induction data as [|job_data rest IH]; intros q Hok; simpl;
    [assumption|].
  destruct (from_dict job_data) as [job|]; [|assumption].
  destruct (is_unfinished (status job)); apply IH.
  - apply (table_ok_jobs
             (with_jobs (set (id job) (set_progress float_0 (set_status PENDING job))
                           (set (id job) job (_jobs q))) q));
      [reflexivity|].
    rewrite set_set. now apply table_ok_store.
  - now apply table_ok_store.
Qed.

Lemma table_ok_init file : table_ok (init file).
Proof.
  assert (H0 : table_ok (mkJobQueue [] [] [] file)).
  { split; simpl; [constructor|tauto]. }
  unfold init, _load_jobs. simpl. destruct file; try assumption.
  now apply table_ok_load.
Qed.

Section Reachable.
Variable isoformat : Z -> string.

(** The atomic steps of the queue: the public operations and the locked
    blocks of a worker. *)
Inductive step : JobQueue -> JobQueue -> Prop :=
| step_submit job_id now jt job_params handler sid q :
    step q (fst (submit isoformat job_id now jt job_params handler sid q))
| step_cancel now job_id q :
    step q (fst (cancel isoformat now job_id q))
| step_dequeue q :
    step q (with_queue (tl (_queue q)) q)
| step_claim now job_id q :
    step q (fst (_process_job_claim isoformat now job_id q))
| step_progress job_id p message q :
    step q (progress_callback job_id p message q)
| step_completed now job_id r q :
    step q (_process_job_completed isoformat now job_id r q)
| step_failed now job_id e q :
    step q (_process_job_failed isoformat now job_id e q)
| step_finally job_id q :
    step q (_process_job_finally job_id q)
| step_cleanup now max_age_hours q :
    step q (fst (cleanup isoformat now max_age_hours q)).

Inductive reachable : JobQueue -> Prop :=
| reachable_init file : reachable (init file)
| reachable_step q q' : reachable q -> step q q' -> reachable q'.

Lemma step_table_ok q q' : step q q' -> table_ok q -> table_ok q'.
Proof.
  intros Hstep Hok. destruct Hstep.
  - unfold submit. simpl.
    apply (table_ok_jobs
             (with_jobs
                (set job_id
                   (mkJob job_id jt PENDING (isoformat now) None None
                          float_0 "" job_params None None sid)
                   (_jobs q)) q)); [reflexivity|].
    now apply table_ok_store.
  - unfold cancel.
    destruct (get job_id (_jobs q)) as [job|] eqn:Hget; [|assumption].
    destruct (negb (JobStatus_eqb (status job) PENDING)); [assumption|].
    simpl.
    apply (table_ok_jobs
             (with_jobs
                (set job_id
                   (set_completed_at (Some (isoformat now))
                      (set_status CANCELLED job))
                   (_jobs q)) q)); [reflexivity|].
    apply table_ok_store; [|assumption].
    destruct Hok as [_ Hkey]. apply (Hkey job_id job). now apply get_Some_In.
  - assumption.
  - unfold _process_job_claim.
    destruct (get job_id (_jobs q)) as [job|] eqn:Hget; [|assumption].
    assert (Hid : id job = job_id).
    { destruct Hok as [_ Hkey]. apply Hkey. now apply get_Some_In. }
    destruct (get job_id (_handlers q)); cbn [fst];
      apply table_ok_saved_store; assumption.
  - unfold progress_callback. destruct (contains job_id (_jobs q)); [|assumption].
    now apply table_ok_update.
  - unfold _process_job_completed.
    eapply table_ok_jobs; [apply jobs_save|]. now apply table_ok_update.
  - unfold _process_job_failed.
    eapply table_ok_jobs; [apply jobs_save|]. now apply table_ok_update.
  - assumption.
  - unfold table_ok.
    destruct (cleanup_table isoformat now max_age_hours q) as [ks ->].
    now apply jobs_ok_del_all.
Qed.

(** X6. Every queue built from [__init__] by the operations and the
    worker's steps is a dictionary that stores every job under its own id
    (so it satisfies the hypothesis of the cleanup theorem). *)
Lemma reachable_table_ok q : reachable q -> table_ok q.
Proof.
  induction 1 as [file|q q' _ IH Hstep].
  - apply table_ok_init.
  - exact (step_table_ok q q' Hstep IH).
Qed.

End Reachable.

(** *** The log a queue writes is one it reloads *)

Lemma from_dict_to_dict j : from_dict (to_dict j) = Some j.
Proof. destruct j as [i t s c st co p pm pa r e sid]. destruct t, s; reflexivity. Qed.

Lemma loaded_records_to_dict l : loaded_records (map to_dict l) = l.
Proof.
  induction l as [|j l IH]; simpl; [reflexivity|].
  now rewrite from_dict_to_dict, IH.
Qed.

Lemma insert_desc_perm j l : Permutation (j :: l) (insert_desc j l).
Proof.
  induction l as [|j' l IH]; simpl; [reflexivity|].
  destruct (String.ltb (created_at j) (created_at j')); [|reflexivity].
  etransitivity; [apply perm_swap|]. now apply perm_skip.
Qed.

Lemma sorted_desc_perm l : Permutation l (sorted_desc l).
Proof.
  induction l as [|j l IH]; simpl; [constructor|].
  etransitivity; [apply perm_skip, IH|]. apply insert_desc_perm.
Qed.

Lemma In_firstn {A : Type} n (l : list A) x : In x (firstn n l) -> In x l.
Proof.
  revert l. induction n as [|n IH]; intros [|y l]; simpl; try tauto.
  intros [->|H]; [now left|right; auto].
Qed.

Lemma NoDup_firstn {A : Type} n (l : list A) :
  List.NoDup l -> List.NoDup (firstn n l).
Proof.
  revert l. induction n as [|n IH]; intros [|y l] Hnd; simpl;
    try constructor.
  - apply NoDup_cons_inv in Hnd as [Hnot Hnd].
    intros Hin. apply Hnot. now apply In_firstn in Hin.
  - apply NoDup_cons_inv in Hnd as [Hnot Hnd]. auto.
Qed.

Lemma firstn_map {A B : Type} (f : A -> B) n (l : list A) :
  firstn n (map f l) = map f (firstn n l).
Proof.
  revert l. induction n as [|n IH]; intros [|y l]; simpl; try reflexivity.
  now rewrite IH.
Qed.

Lemma ids_of_values q :
  table_ok q -> map id (values (_jobs q)) = keys (_jobs q).
Proof.
  intros [_ Hkey]. unfold values, keys. rewrite map_map.
  apply map_ext_in. intros [k j] Hin. simpl. now apply Hkey.
Qed.

(** The records of the log written by [_save_jobs] have distinct ids. *)
Lemma saved_ids_distinct q :
  table_ok q ->
  List.NoDup (map id (firstn 100 (sorted_desc (values (_jobs q))))).
Proof.
  intros Hok. rewrite <- firstn_map. apply NoDup_firstn.
  apply (Permutation_NoDup
           (Permutation_map id (sorted_desc_perm (values (_jobs q))))).
  rewrite ids_of_values by assumption. apply Hok.
Qed.

(** X7. A restart: the queue saves its log and a new queue object is built
    from it.  Each of the (up to 100 most recent) saved jobs that was
    Pending or Running is found with status Pending and progress 0.0, its
    other fields as saved, and is queued again; each saved job in a
    terminal status is as it was and is not queued. *)
Lemma restart_requeues q job :
  table_ok q ->
  In job (firstn 100 (sorted_desc (values (_jobs q)))) ->
  (is_unfinished (status job) = true ->
     get_job (id job) (init (_jobs_file (_save_jobs q))) =
       Some (mkJob (id job) (job_type job) PENDING (created_at job)
                   (started_at job) (completed_at job) float_0
                   (progress_message job) (params job) (result job)
                   (error job) (session_id job))
     /\ In (id job) (_queue (init (_jobs_file (_save_jobs q)))))
  /\ (is_unfinished (status job) = false ->
        get_job (id job) (init (_jobs_file (_save_jobs q))) = Some job
        /\ ~ In (id job) (_queue (init (_jobs_file (_save_jobs q))))).
Proof.
  intros Hok Hin. pose proof (saved_ids_distinct q Hok) as Hnd.
  unfold _save_jobs, init, _load_jobs, get_job. simpl.
  rewrite load_loop_unfold, loaded_records_to_dict. simpl.
  rewrite (get_store_all job _ [] Hnd Hin). unfold requeued.
  split; intros Hu; rewrite Hu; (split; [reflexivity|]).
  - apply in_map. apply filter_In. now split.
  - intros Hq. apply in_map_iff in Hq as (j' & Hid & Hj').
    apply filter_In in Hj' as [Hj' Hu'].
    assert (j' = job) by (eapply NoDup_map_inj; eauto).
    subst j'. congruence.
Qed.

(** *** Serialization of a job *)

Lemma JobType_value_of v t : JobType_of_value v = Some t -> JobType_value t = v.
Proof.
  unfold JobType_of_value.
  repeat (match goal with
          | |- context [String.eqb v ?c] =>
              destruct (String.eqb_spec v c) as [->|_]
          end; [intros [= <-]; reflexivity|]).
  discriminate.
Qed.

Lemma JobStatus_value_of v s :
  JobStatus_of_value v = Some s -> JobStatus_value s = v.
Proof.
  unfold JobStatus_of_value.
  repeat (match goal with
          | |- context [String.eqb v ?c] =>
              destruct (String.eqb_spec v c) as [->|_]
          end; [intros [= <-]; reflexivity|]).
  discriminate.
Qed.

(** X1. [Job.from_dict] undoes [Job.to_dict]: decoding the record of a
    job gives the job back, so two jobs with the same record are the same
    job; and the two enums are written as the strings their constructors
    read back. *)
Theorem job_dict_round_trip :
  (forall j, from_dict (to_dict j) = Some j)
  /\ (forall j j', to_dict j = to_dict j' -> j = j')
  /\ (forall s, JobStatus_of_value (JobStatus_value s) = Some s)
  /\ (forall t, JobType_of_value (JobType_value t) = Some t).
Proof.
  assert (H : forall j, from_dict (to_dict j) = Some j).
  { intros [i t s c st co p pm pa r e sid]. destruct t, s; reflexivity. }
  split; [exact H|]. split; [|split].
  - intros j j' Heq. pose proof (H j) as Hj. rewrite Heq, H in Hj.
    now injection Hj.
  - intros []; reflexivity.
  - intros []; reflexivity.
Qed.

(** X29. A record that holds all twelve fields of a job, as [to_dict]
    writes them, and that [Job.from_dict] accepts is exactly the record
    [Job.to_dict] gives for the decoded job. *)
Theorem full_record_is_canonical data j :
  from_dict data = Some j -> to_dict j = data.
Proof.
  destruct data as [i t s c st co p pm pa r e sid]. unfold from_dict. simpl.
  destruct (JobType_of_value t) as [jt|] eqn:Et; [|discriminate].
  destruct (JobStatus_of_value s) as [js|] eqn:Es; [|discriminate].
  intros [= <-]. unfold to_dict. simpl.
  now rewrite (JobType_value_of _ _ Et), (JobStatus_value_of _ _ Es).
Qed.

Lemma full_record_is_canonical_witness :
  from_dict (demo_data "a" "running" float_1) =
    Some (mkJob "a" RENDER_IMAGE RUNNING "2026-01-01T08:00:00+00:00" None None
                float_1 "" [] None None None)
  /\ to_dict (mkJob "a" RENDER_IMAGE RUNNING "2026-01-01T08:00:00+00:00" None
                    None float_1 "" [] None None None)
     = demo_data "a" "running" float_1.
Proof.
  split; [reflexivity|].
  exact (full_record_is_canonical (demo_data "a" "running" float_1) _ eq_refl).
Defined.

(** *** submit, cancel and the progress callback *)

Section MoreOperations.
Variable isoformat : Z -> string.

(** X2. [submit] returns the id it was given by the uuid generator; the
    job is in the table as Pending with progress 0.0, no timestamps but
    [created_at], no result and no error; its handler is stored; the id is
    put at the back of the work queue; and no other job or handler is
    touched. *)
Theorem submit_adds_pending_job job_id now jt prms handler sid q :
  snd (submit isoformat job_id now jt prms handler sid q) = job_id
  /\ get_job job_id (fst (submit isoformat job_id now jt prms handler sid q)) =
       Some (mkJob job_id jt PENDING (isoformat now) None None float_0 ""
                   prms None None sid)
  /\ get job_id
       (_handlers (fst (submit isoformat job_id now jt prms handler sid q)))
     = Some handler
  /\ _queue (fst (submit isoformat job_id now jt prms handler sid q))
     = (_queue q ++ [job_id])%list
  /\ (forall k, k <> job_id ->
        get_job k (fst (submit isoformat job_id now jt prms handler sid q))
          = get_job k q
        /\ get k (_handlers
                    (fst (submit isoformat job_id now jt prms handler sid q)))
           = get k (_handlers q)).
Proof.
  unfold submit, get_job. simpl. repeat split.
  - apply get_set_eq.
  - apply get_set_eq.
  - now apply get_set_ne.
  - now apply get_set_ne.
Qed.

(** X11. A second [cancel] of the same job is always refused and changes
    nothing, whatever the first one did. *)
Theorem cancel_twice_is_refused t1 t2 job_id q :
  cancel isoformat t2 job_id (fst (cancel isoformat t1 job_id q))
  = (fst (cancel isoformat t1 job_id q), false).
Proof.
  destruct (get_job job_id q) as [job|] eqn:Hget.
  - destruct (JobStatus_eqb (status job) PENDING) eqn:E.
    + apply JobStatus_eqb_eq in E.
      rewrite (cancel_pending isoformat t1 job_id q job Hget E). simpl.
      eapply cancel_not_pending.
      * unfold get_job. simpl. apply get_set_eq.
      * discriminate.
    + assert (Hs : status job <> PENDING).
      { intros H. apply JobStatus_eqb_eq in H. congruence. }
      rewrite (cancel_not_pending isoformat t1 job_id q job Hget Hs). simpl.
      now apply (cancel_not_pending isoformat t2 job_id q job).
  - rewrite (cancel_unknown isoformat t1 job_id q Hget). simpl.
    now apply cancel_unknown.
Qed.

(** X5. For every reported progress that is not NaN, the callback leaves
    the job with a progress within [0, 1] and the reported message, and
    with all its other fields as they were. *)
Theorem progress_report_is_clamped job_id p message q job :
  get_job job_id q = Some job ->
  p <> S754_nan ->
  exists job',
    get_job job_id (progress_callback job_id p message q) = Some job'
    /\ in_unit_interval (progress job') = true
    /\ progress_message job' = message
    /\ set_progress (progress job) (set_progress_message (progress_message job) job')
       = job.
Proof.
  intros Hget Hp. eexists. split.
  - apply (progress_callback_stores_clamp job_id p message q job Hget).
  - split; [now apply clamp_in_unit_interval|]. split; [reflexivity|].
    destruct job. reflexivity.
Qed.

End MoreOperations.

(** [1.5] *)
Definition float_1_5 : float := S754_finite false 6755399441055744 (-52).

Lemma progress_report_is_clamped_witness :
  (get_job "old-pending" demo_queue = Some (demo_job "old-pending" PENDING None)
   /\ float_1_5 <> S754_nan)
  /\ exists job',
       get_job "old-pending"
         (progress_callback "old-pending" float_1_5 "half" demo_queue)
       = Some job'
       /\ in_unit_interval (progress job') = true.
Proof.
  assert (Hp : float_1_5 <> S754_nan) by discriminate.
  split; [split; [reflexivity|exact Hp]|].
  destruct (progress_report_is_clamped "old-pending" float_1_5 "half"
              demo_queue _ eq_refl Hp) as (job' & Hget & Hin & _).
  exists job'. split; assumption.
Defined.

(** *** A worker runs a job *)

(** The job after the progress reports of a handler run. *)
Definition reported (calls : list (float * string)) (job : Job) : Job :=
  fold_left
    (fun j call =>
       set_progress_message (snd call) (set_progress (clamp (fst call)) j))
    calls job.

(** The last report of a handler run, when there is one. *)
Fixpoint last_report (calls : list (float * string))
    : option (float * string) :=
  match calls with
  | [] => None
  | call :: rest =>
      match last_report rest with
      | Some c => Some c
      | None => Some call
      end
  end.

(** The progress and the message of a job after the reports [calls]. *)
Definition progress_after (calls : list (float * string)) (job : Job) : float :=
  match last_report calls with
  | Some c => clamp (fst c)
  | None => progress job
  end.

Definition message_after (calls : list (float * string)) (job : Job) : string :=
  match last_report calls with
  | Some c => snd c
  | None => progress_message job
  end.

Lemma reported_fields calls job :
  reported calls job =
    mkJob (id job) (job_type job) (status job) (created_at job)
          (started_at job) (completed_at job) (progress_after calls job)
          (message_after calls job) (params job) (result job) (error job)
          (session_id job).
Proof.
  revert job. induction calls as [|call calls IH]; intros job.
  - destruct job; reflexivity.
  - change (reported (call :: calls) job)
      with (reported calls
              (set_progress_message (snd call)
                 (set_progress (clamp (fst call)) job))).
    rewrite IH. unfold progress_after, message_after. simpl.
    destruct (last_report calls); reflexivity.
Qed.

Definition report_all (job_id : string) (calls : list (float * string))
    (q : JobQueue) : JobQueue :=
  fold_left (fun acc call => progress_callback job_id (fst call) (snd call) acc)
    calls q.

Lemma report_all_spec job_id calls q job :
  get_job job_id q = Some job ->
  get_job job_id (report_all job_id calls q) = Some (reported calls job)
  /\ (forall k, k <> job_id ->
        get_job k (report_all job_id calls q) = get_job k q)
  /\ _handlers (report_all job_id calls q) = _handlers q
  /\ _queue (report_all job_id calls q) = _queue q.
Proof.
  revert q job. induction calls as [|[p message] calls IH]; intros q job Hget.
  - simpl. auto.
  - simpl.
    pose proof (progress_callback_stores_clamp job_id p message q job Hget)
      as Hstep.
    destruct (IH _ _ Hstep) as (H1 & H2 & H3 & H4).
    unfold report_all in *. simpl.
    split; [exact H1|]. split; [|split].
    + intros k Hk. rewrite (H2 k Hk).
      unfold get_job, progress_callback, contains, update.
      unfold get_job in Hget. rewrite Hget. simpl. now apply get_set_ne.
    + rewrite H3. unfold progress_callback, contains, update.
      unfold get_job in Hget. now rewrite Hget.
    + rewrite H4. unfold progress_callback, contains, update.
      unfold get_job in Hget. now rewrite Hget.
Qed.

Section Worker.
Variable isoformat : Z -> string.

Lemma process_job_unfold now now' job_id q job handler :
  get_job job_id q = Some job ->
  get job_id (_handlers q) = Some handler ->
  _process_job isoformat now now' job_id q =
    _process_job_finally job_id
      (match returned (handler (params job)) with
       | inl result =>
           _process_job_completed isoformat now' job_id result
             (report_all job_id (progress_calls (handler (params job)))
                (_save_jobs
                   (with_jobs
                      (set job_id
                         (set_started_at (Some (isoformat now))
                            (set_status RUNNING job))
                         (_jobs q)) q)))
       | inr e =>
           _process_job_failed isoformat now' job_id e
             (report_all job_id (progress_calls (handler (params job)))
                (_save_jobs
                   (with_jobs
                      (set job_id
                         (set_started_at (Some (isoformat now))
                            (set_status RUNNING job))
                         (_jobs q)) q)))
       end).
Proof.
  unfold get_job, _process_job, _process_job_claim. intros -> ->. reflexivity.
Qed.

(** X3. A worker processes a job that is in the table with its handler,
    and the handler returns.  Whatever progress the handler reported, the
    job ends Completed with progress 1.0, the returned result, [started_at]
    and [completed_at] set to the two clock readings, and the message of
    the last report (its own when there was none); its other fields are
    as before; the handler reference is dropped; the other jobs, the other
    handlers and the work queue are as before. *)
Theorem process_job_completes now now' job_id q job handler result :
  get_job job_id q = Some job ->
  get job_id (_handlers q) = Some handler ->
  returned (handler (params job)) = inl result ->
  get_job job_id (_process_job isoformat now now' job_id q) =
    Some (mkJob (id job) (job_type job) COMPLETED (created_at job)
                (Some (isoformat now)) (Some (isoformat now')) float_1
                (message_after (progress_calls (handler (params job))) job)
                (params job) (Some result) (error job) (session_id job))
  /\ get job_id (_handlers (_process_job isoformat now now' job_id q)) = None
  /\ (forall k, k <> job_id ->
        get_job k (_process_job isoformat now now' job_id q) = get_job k q
        /\ get k (_handlers (_process_job isoformat now now' job_id q))
           = get k (_handlers q))
  /\ _queue (_process_job isoformat now now' job_id q) = _queue q.
Proof.
  intros Hget Hh Hret.
  rewrite (process_job_unfold now now' job_id q job handler Hget Hh), Hret.
  set (q1 := _save_jobs
               (with_jobs
                  (set job_id
                     (set_started_at (Some (isoformat now))
                        (set_status RUNNING job)) (_jobs q)) q)).
  assert (H1 : get_job job_id q1 =
               Some (set_started_at (Some (isoformat now))
                       (set_status RUNNING job))).
  { unfold get_job, q1. simpl. apply get_set_eq. }
  destruct (report_all_spec job_id (progress_calls (handler (params job)))
              q1 _ H1) as (H2 & H3 & H4 & H5).
  rewrite reported_fields in H2.
  unfold _process_job_finally, _process_job_completed, update, get_job in *.
  rewrite H2. simpl. repeat split.
  - apply get_set_eq.
  - rewrite H4. apply get_del_eq.
  - rewrite get_set_ne by assumption. rewrite (H3 k) by assumption.
    unfold q1. simpl. now apply get_set_ne.
  - rewrite H4. rewrite get_del_ne by assumption. reflexivity.
  - rewrite H5. reflexivity.
Qed.

(** X4. The same, when the handler raises: the job ends Failed with
    [str(e)] as its error and [started_at] and [completed_at] set to the
    two clock readings; its progress and message are those of the last
    report (the progress clamped), or what they were when there was none;
    its result and its other fields are left as they were; the handler
    reference is dropped and nothing else changes. *)
Theorem process_job_records_failure now now' job_id q job handler e :
  get_job job_id q = Some job ->
  get job_id (_handlers q) = Some handler ->
  returned (handler (params job)) = inr e ->
  get_job job_id (_process_job isoformat now now' job_id q) =
    Some (mkJob (id job) (job_type job) FAILED (created_at job)
                (Some (isoformat now)) (Some (isoformat now'))
                (progress_after (progress_calls (handler (params job))) job)
                (message_after (progress_calls (handler (params job))) job)
                (params job) (result job) (Some e) (session_id job))
  /\ get job_id (_handlers (_process_job isoformat now now' job_id q)) = None
  /\ (forall k, k <> job_id ->
        get_job k (_process_job isoformat now now' job_id q) = get_job k q
        /\ get k (_handlers (_process_job isoformat now now' job_id q))
           = get k (_handlers q))
  /\ _queue (_process_job isoformat now now' job_id q) = _queue q.
Proof.
  intros Hget Hh Hret.
  rewrite (process_job_unfold now now' job_id q job handler Hget Hh), Hret.
  set (q1 := _save_jobs
               (with_jobs
                  (set job_id
                     (set_started_at (Some (isoformat now))
                        (set_status RUNNING job)) (_jobs q)) q)).
  assert (H1 : get_job job_id q1 =
               Some (set_started_at (Some (isoformat now))
                       (set_status RUNNING job))).
  { unfold get_job, q1. simpl. apply get_set_eq. }
  destruct (report_all_spec job_id (progress_calls (handler (params job)))
              q1 _ H1) as (H2 & H3 & H4 & H5).
  rewrite reported_fields in H2.
  unfold _process_job_finally, _process_job_failed, update, get_job in *.
  rewrite H2. simpl. repeat split.
  - apply get_set_eq.
  - rewrite H4. apply get_del_eq.
  - rewrite get_set_ne by assumption. rewrite (H3 k) by assumption.
    unfold q1. simpl. now apply get_set_ne.
  - rewrite H4. rewrite get_del_ne by assumption. reflexivity.
  - rewrite H5. reflexivity.
Qed.

(** X8. Handlers are not part of the persisted log.  On a queue object
    that has just been constructed, a worker that takes any job of the
    table (so any job that was queued again) does not run anything: the
    job is found with status Failed and the error "No handler registered",
    its other fields (no [completed_at] among them) as they were. *)
Theorem reloaded_job_fails_without_handler file now now' job_id job :
  get_job job_id (init file) = Some job ->
  _handlers (init file) = []
  /\ get_job job_id (_process_job isoformat now now' job_id (init file)) =
       Some (mkJob (id job) (job_type job) FAILED (created_at job)
                   (started_at job) (completed_at job) (progress job)
                   (progress_message job) (params job) (result job)
                   (Some "No handler registered") (session_id job)).
Proof.
  intros Hget.
  assert (Hh : _handlers (init file) = []).
  { unfold init, _load_jobs. simpl. destruct file; try reflexivity.
    now rewrite load_loop_unfold. }
  split; [exact Hh|].
  rewrite (process_without_handler isoformat now now' job_id (init file) job);
    [reflexivity|assumption|now rewrite Hh].
Qed.

End Worker.

(** A handler that reports twice, the second time above 1, and returns. *)
Definition demo_handler : Handler :=
  fun _ => mkHandlerRun [(float_0, "start"); (float_1_5, "almost")]
                        (inl [("frames", AInt 3)]).

(** A handler that reports once, above 1, and raises. *)
Definition demo_raising_handler : Handler :=
  fun _ => mkHandlerRun [(float_1_5, "writing")] (inr "disk full").

(** The clock of the worker: the claim is at 10:00, the end at 10:05. *)
Definition demo_clock (t : Z) : string :=
  if (t <? 2)%Z then "2026-01-17T10:00:00+00:00"
  else "2026-01-17T10:05:00.250000+00:00".

Definition demo_running : JobQueue :=
  fst (submit demo_iso "job-2" 0 RENDER_ANIMATION [] demo_handler None
         demo_queue).

Definition demo_failing : JobQueue :=
  fst (submit demo_iso "job-3" 0 EXPORT [] demo_raising_handler None
         demo_queue).

Lemma process_job_completes_witness :
  (get_job "job-2" demo_running =
     Some (mkJob "job-2" RENDER_ANIMATION PENDING (demo_iso 0) None None
                 float_0 "" [] None None None)
   /\ get "job-2" (_handlers demo_running) = Some demo_handler
   /\ returned (demo_handler []) = inl [("frames", AInt 3)])
  /\ get_job "job-2" (_process_job demo_clock 1 2 "job-2" demo_running) =
       Some (mkJob "job-2" RENDER_ANIMATION COMPLETED (demo_iso 0)
                   (Some "2026-01-17T10:00:00+00:00")
                   (Some "2026-01-17T10:05:00.250000+00:00")
                   float_1 "almost" [] (Some [("frames", AInt 3)]) None None)
  /\ get "job-2" (_handlers (_process_job demo_clock 1 2 "job-2" demo_running))
     = None.
Proof.
  split; [repeat split|].
  destruct (process_job_completes demo_clock 1 2 "job-2" demo_running _
              demo_handler _ eq_refl eq_refl eq_refl) as (H & Hh & _).
  exact (conj H Hh).
Defined.

Lemma process_job_records_failure_witness :
  (get_job "job-3" demo_failing =
     Some (mkJob "job-3" EXPORT PENDING (demo_iso 0) None None
                 float_0 "" [] None None None)
   /\ get "job-3" (_handlers demo_failing) = Some demo_raising_handler
   /\ returned (demo_raising_handler []) = inr "disk full")
  /\ get_job "job-3" (_process_job demo_clock 1 2 "job-3" demo_failing) =
       Some (mkJob "job-3" EXPORT FAILED (demo_iso 0)
                   (Some "2026-01-17T10:00:00+00:00")
                   (Some "2026-01-17T10:05:00.250000+00:00")
                   float_1 "writing" [] None (Some "disk full") None)
  /\ get "job-3" (_handlers (_process_job demo_clock 1 2 "job-3" demo_failing))
     = None.
Proof.
  split; [repeat split|].
  destruct (process_job_records_failure demo_clock 1 2 "job-3" demo_failing _
              demo_raising_handler _ eq_refl eq_refl eq_refl) as (H & Hh & _).
  exact (conj H Hh).
Defined.

Lemma reloaded_job_fails_without_handler_witness :
  get_job "a" (init (JobsDoc demo_log)) =
    Some (mkJob "a" RENDER_IMAGE PENDING "2026-01-01T08:00:00+00:00" None None
                float_0 "" [] None None None)
  /\ get_job "a" (_process_job demo_clock 1 2 "a" (init (JobsDoc demo_log))) =
       Some (mkJob "a" RENDER_IMAGE FAILED "2026-01-01T08:00:00+00:00" None
                   None float_0 "" [] None (Some "No handler registered") None).
Proof.
  split; [reflexivity|].
  exact (proj2 (reloaded_job_fails_without_handler demo_clock
                  (JobsDoc demo_log) 1 2 "a" _ eq_refl)).
Defined.

(** *** More on the persisted log *)

Lemma loaded_records_stop pre bad post :
  from_dict bad = None ->
  loaded_records (pre ++ bad :: post) = loaded_records pre.
Proof.
  intros Hbad. induction pre as [|d pre IH]; simpl.
  - now rewrite Hbad.
  - destruct (from_dict d); [now rewrite IH|reflexivity].
Qed.

(** X9. [_load_jobs] gives up at the first record that [from_dict]
    rejects: that record and every record after it in the log are not
    loaded, whatever they hold, while the records before it stay loaded
    (and queued as usual). *)
Theorem load_stops_at_rejected_record pre bad post :
  from_dict bad = None ->
  _jobs (init (JobsDoc (pre ++ bad :: post))) = _jobs (init (JobsDoc pre))
  /\ _queue (init (JobsDoc (pre ++ bad :: post))) = _queue (init (JobsDoc pre)).
Proof.
  intros Hbad. unfold init, _load_jobs. simpl.
  rewrite !load_loop_unfold. simpl.
  now rewrite (loaded_records_stop pre bad post Hbad).
Qed.

Lemma load_stops_at_rejected_record_witness :
  from_dict (demo_data "x" "paused" float_0) = None
  /\ keys (_jobs (init (JobsDoc ([demo_data "a" "running" float_1]
                                  ++ demo_data "x" "paused" float_0
                                  :: [demo_data "c" "completed" float_1]))))
     = ["a"].
Proof.
  split; [reflexivity|].
  destruct (load_stops_at_rejected_record [demo_data "a" "running" float_1]
              (demo_data "x" "paused" float_0)
              [demo_data "c" "completed" float_1] eq_refl) as [H _].
  rewrite H. reflexivity.
Defined.

Lemma demo_queue_table_ok : table_ok demo_queue.
Proof.
  split.
  - unfold wf. simpl. repeat constructor; simpl; intuition discriminate.
  - simpl. intros k j [H|[H|[H|[]]]]; injection H as <- <-; reflexivity.
Qed.

Lemma reachable_table_ok_witness :
  reachable demo_iso
    (fst (cancel demo_iso 1 "job-1"
            (fst (submit demo_iso "job-1" 0 RENDER_IMAGE [] nan_handler None
                    (init NoFile)))))
  /\ table_ok
       (fst (cancel demo_iso 1 "job-1"
               (fst (submit demo_iso "job-1" 0 RENDER_IMAGE [] nan_handler None
                       (init NoFile))))).
Proof.
  assert (H : reachable demo_iso
                (fst (cancel demo_iso 1 "job-1"
                        (fst (submit demo_iso "job-1" 0 RENDER_IMAGE []
                                nan_handler None (init NoFile)))))).
  { eapply reachable_step; [|apply step_cancel].
    eapply reachable_step; [|apply step_submit].
    apply reachable_init. }
  split; [exact H|]. exact (reachable_table_ok demo_iso _ H).
Defined.

(** A table with a job that a worker is running, half way through. *)
Definition float_0_5 : float := S754_finite false 4503599627370496 (-53).

Definition demo_busy_job : Job :=
  mkJob "busy" BAKE_PHYSICS RUNNING "2026-01-17T09:00:00+00:00"
        (Some "2026-01-17T09:00:01+00:00") None float_0_5 "frame 12"
        [("frames", AInt 24)] None None (Some "a1b2c3d4").

Definition demo_busy : JobQueue :=
  mkJobQueue
    [("busy", demo_busy_job);
     ("done", demo_job "done" COMPLETED (Some "2026-01-10T09:30:00+00:00"))]
    [] [] NoFile.

Lemma demo_busy_table_ok : table_ok demo_busy.
Proof.
  split.
  - unfold wf. simpl. repeat constructor; simpl; intuition discriminate.
  - simpl. intros k j [H|[H|[]]]; injection H as <- <-; reflexivity.
Qed.

Lemma restart_requeues_witness :
  (table_ok demo_busy
   /\ In demo_busy_job (firstn 100 (sorted_desc (values (_jobs demo_busy)))))
  /\ get_job "busy" (init (_jobs_file (_save_jobs demo_busy)))
     = Some (mkJob "busy" BAKE_PHYSICS PENDING "2026-01-17T09:00:00+00:00"
                   (Some "2026-01-17T09:00:01+00:00") None float_0 "frame 12"
                   [("frames", AInt 24)] None None (Some "a1b2c3d4"))
  /\ In "busy" (_queue (init (_jobs_file (_save_jobs demo_busy)))).
Proof.
  assert (Hin : In demo_busy_job
                   (firstn 100 (sorted_desc (values (_jobs demo_busy))))).
  { vm_compute. now left. }
  split; [split; [exact demo_busy_table_ok|exact Hin]|].
  destruct (restart_requeues demo_busy _ demo_busy_table_ok Hin) as [H _].
  exact (H eq_refl).
Defined.

(** *** The order of the log and of listings *)

(** [a] was created no earlier than [b], as ISO strings compare. *)
Definition newer_or_equal (a b : Job) : Prop :=
  String.ltb (created_at a) (created_at b) = false.

Lemma ltb_lt a b : String.ltb a b = true <-> String_as_OT.lt a b.
Proof.
  unfold String.ltb. rewrite <- String_as_OT.cmp_lt.
  unfold String_as_OT.cmp. destruct (String.compare a b); split; congruence.
Qed.

Lemma ltb_irrefl a : String.ltb a a = false.
Proof.
  destruct (String.ltb a a) eqn:E; [|reflexivity].
  apply ltb_lt in E. exfalso. now apply (String_as_OT.lt_not_eq _ _ E).
Qed.

Lemma ltb_trans a b c :
  String.ltb a b = true -> String.ltb b c = true -> String.ltb a c = true.
Proof.
  rewrite !ltb_lt. apply String_as_OT.lt_trans.
Qed.

Lemma ltb_asym a b : String.ltb a b = true -> String.ltb b a = false.
Proof.
  intros H. destruct (String.ltb b a) eqn:E; [|reflexivity].
  pose proof (ltb_trans _ _ _ H E) as Haa. now rewrite ltb_irrefl in Haa.
Qed.

Lemma ltb_false_cases a b :
  String.ltb a b = false -> a = b \/ String.ltb b a = true.
Proof.
  unfold String.ltb. rewrite (String.compare_antisym a b).
  destruct (String.compare b a) eqn:E; simpl; try discriminate.
  - intros _. left. symmetry. now apply String.compare_eq_iff.
  - intros _. now right.
Qed.

Lemma newer_or_equal_trans a b c :
  newer_or_equal a b -> newer_or_equal b c -> newer_or_equal a c.
Proof.
  unfold newer_or_equal. intros Hab Hbc.
  destruct (ltb_false_cases _ _ Hab) as [Heq|Hba].
  - now rewrite Heq.
  - destruct (ltb_false_cases _ _ Hbc) as [Heq|Hcb].
    + rewrite <- Heq. now apply ltb_asym.
    + apply ltb_asym. now apply (ltb_trans _ (created_at b)).
Qed.

Lemma insert_desc_In j x l : In x (insert_desc j l) <-> x = j \/ In x l.
Proof.
  induction l as [|j' l IH]; simpl.
  - intuition.
  - destruct (String.ltb (created_at j) (created_at j')); simpl.
    + rewrite IH. intuition.
    + intuition.
Qed.

Lemma insert_desc_sorted j l :
  StronglySorted newer_or_equal l ->
  StronglySorted newer_or_equal (insert_desc j l).
Proof.
  induction l as [|j' l IH]; simpl; intros Hs.
  - constructor; [constructor|constructor].
  - inversion Hs as [|? ? Hl Hall]; subst.
    destruct (String.ltb (created_at j) (created_at j')) eqn:E.
    + constructor; [now apply IH|].
      apply List.Forall_forall. intros x Hx. apply insert_desc_In in Hx as [->|Hx].
      * unfold newer_or_equal. now apply ltb_asym.
      * rewrite List.Forall_forall in Hall. now apply Hall.
    + constructor; [assumption|].
      constructor; [exact E|].
      rewrite List.Forall_forall in *. intros x Hx.
      apply (newer_or_equal_trans j j' x); [exact E|now apply Hall].
Qed.

Lemma sorted_desc_sorted l : StronglySorted newer_or_equal (sorted_desc l).
Proof.
  induction l as [|j l IH]; simpl; [constructor|].
  now apply insert_desc_sorted.
Qed.

Lemma StronglySorted_app {A : Type} (R : A -> A -> Prop) l1 l2 :
  StronglySorted R (l1 ++ l2)%list ->
  StronglySorted R l1 /\ forall a b, In a l1 -> In b l2 -> R a b.
Proof.
  induction l1 as [|x l1 IH]; simpl; intros Hs.
  - split; [constructor|tauto].
  - inversion Hs as [|? ? Hl Hall]; subst.
    destruct (IH Hl) as [H1 H2]. split.
    + constructor; [assumption|].
      rewrite List.Forall_forall in *. intros y Hy. apply Hall.
      apply in_or_app. now left.
    + intros a b [->|Ha] Hb; [|now apply H2].
      rewrite List.Forall_forall in Hall. apply Hall. apply in_or_app. now right.
Qed.

(** X10. [_save_jobs] writes the [to_dict] records of the
    [min(100, number of jobs)] most recently created jobs, the most recent
    first: no job left out of the log was created after one that is in it.
    The table, the handlers and the work queue are not touched. *)
Theorem save_keeps_most_recent q :
  exists recent dropped,
    _jobs_file (_save_jobs q) = JobsDoc (map to_dict recent)
    /\ Permutation (values (_jobs q)) (recent ++ dropped)%list
    /\ length recent = Nat.min 100 (length (_jobs q))
    /\ StronglySorted newer_or_equal recent
    /\ (forall a b, In a recent -> In b dropped -> newer_or_equal a b)
    /\ _jobs (_save_jobs q) = _jobs q
    /\ _handlers (_save_jobs q) = _handlers q
    /\ _queue (_save_jobs q) = _queue q.
Proof.
  exists (firstn 100 (sorted_desc (values (_jobs q)))),
         (skipn 100 (sorted_desc (values (_jobs q)))).
  pose proof (sorted_desc_sorted (values (_jobs q))) as Hs.
  rewrite <- (firstn_skipn 100 (sorted_desc (values (_jobs q)))) in Hs.
  apply StronglySorted_app in Hs as [Hs1 Hs2].
  split; [reflexivity|]. split.
  { rewrite firstn_skipn. apply sorted_desc_perm. }
  split.
  { rewrite length_firstn.
    rewrite <- (Permutation_length (sorted_desc_perm (values (_jobs q)))).
    unfold values. now rewrite length_map. }
  split; [assumption|]. split; [assumption|]. repeat split.
Qed.

(** *** cleanup, again *)

Lemma In_del_all k v ks (d : dict Job) :
  In (k, v) (del_all ks d) <-> In (k, v) d /\ ~ In k ks.
Proof.
  revert d. induction ks as [|k0 ks IH]; intros d; simpl.
  - tauto.
  - change (del_all (k0 :: ks) d) with (del_all ks (del k0 d)).
    rewrite IH, In_del. intuition congruence.
Qed.

Lemma expired_keys_after_cleanup cutoff_iso (d : dict Job) :
  expired_keys cutoff_iso (del_all (expired_keys cutoff_iso d) d) = [].
Proof.
  unfold expired_keys at 1.
  assert (H : forall item,
             In item (del_all (expired_keys cutoff_iso d) d) ->
             expired cutoff_iso (snd item) = false).
  { intros [k j] Hin. apply In_del_all in Hin as [Hin Hnot]. simpl.
    destruct (expired cutoff_iso j) eqn:E; [|reflexivity].
    exfalso. apply Hnot. unfold expired_keys. apply in_map_iff.
    exists (k, j). split; [reflexivity|]. apply filter_In. now split. }
  induction (del_all (expired_keys cutoff_iso d) d) as [|item l IH]; simpl;
    [reflexivity|].
  rewrite (H item) by now left. apply IH. intros x Hx. apply H. now right.
Qed.

Lemma cleanup_nothing_expired (isoformat : Z -> string) (now max_age_hours : Z) q :
  timedelta_ok max_age_hours = true ->
  datetime_ok (now - max_age_hours * 3600000000)%Z = true ->
  expired_keys (isoformat (now - max_age_hours * 3600000000)%Z) (_jobs q) = [] ->
  cleanup isoformat now max_age_hours q = (q, Ok 0%nat).
Proof.
  intros Ht Hd Hnil.
  rewrite (cleanup_returns isoformat now max_age_hours q Ht Hd), Hnil. simpl.
  destruct q. reflexivity.
Qed.

(** X12. Running [cleanup] again with the same clock and the same age:
    when the first run returned a count, the second removes nothing,
    returns 0 and leaves the queue object, the log included, exactly as the
    first run left it; when the first run raised [OverflowError], so does
    the second, and the queue is still the one before the first run. *)
Theorem cleanup_twice_removes_nothing
    (isoformat : Z -> string) (now max_age_hours : Z) q :
  let first := cleanup isoformat now max_age_hours q in
  let second := cleanup isoformat now max_age_hours (fst first) in
  (forall removed, snd first = Ok removed -> second = (fst first, Ok 0%nat))
  /\ (forall e, snd first = Raise e ->
        e = OverflowError /\ fst first = q /\ second = (q, Raise OverflowError))
  /\ (timedelta_ok max_age_hours = true ->
      datetime_ok (now - max_age_hours * 3600000000)%Z = true ->
      exists removed, snd first = Ok removed)
  /\ (timedelta_ok max_age_hours = false
      \/ datetime_ok (now - max_age_hours * 3600000000)%Z = false ->
      snd first = Raise OverflowError).
Proof.
  intros first second. subst first second.
  destruct (timedelta_ok max_age_hours) eqn:Ht;
    [destruct (datetime_ok (now - max_age_hours * 3600000000)%Z) eqn:Hd|].
  - destruct (cleanup_jobs isoformat now max_age_hours q Ht Hd) as [Hj Hn].
    split; [|split; [|split]].
    + intros removed _. apply cleanup_nothing_expired; try assumption.
      rewrite Hj. apply expired_keys_after_cleanup.
    + intros e He. rewrite Hn in He. discriminate He.
    + intros _ _. eauto.
    + intros [H|H]; discriminate H.
  - assert (Hr : cleanup isoformat now max_age_hours q = (q, Raise OverflowError)).
    { apply cleanup_raises. right. exact Hd. }
    rewrite Hr. cbn [fst snd]. rewrite Hr.
    split; [|split; [|split]].
    + intros removed H. discriminate H.
    + intros e [= <-]. auto.
    + intros _ H. discriminate H.
    + intros _. reflexivity.
  - assert (Hr : cleanup isoformat now max_age_hours q = (q, Raise OverflowError)).
    { apply cleanup_raises. left. exact Ht. }
    rewrite Hr. cbn [fst snd]. rewrite Hr.
    split; [|split; [|split]].
    + intros removed H. discriminate H.
    + intros e [= <-]. auto.
    + intros H. discriminate H.
    + intros _. reflexivity.
Qed.

(** X12 on the example table of the cleanup theorem: the first run
    removes one job and writes the log, the second returns 0. *)
Lemma cleanup_twice_removes_nothing_witness :
  snd (cleanup demo_iso demo_now 24%Z demo_queue) = Ok 1%nat
  /\ cleanup demo_iso demo_now 24%Z
       (fst (cleanup demo_iso demo_now 24%Z demo_queue))
     = (fst (cleanup demo_iso demo_now 24%Z demo_queue), Ok 0%nat).
Proof.
  split; [reflexivity|].
  exact (proj1 (cleanup_twice_removes_nothing demo_iso demo_now 24%Z demo_queue)
           1%nat eq_refl).
Defined.

(** *** list *)

Lemma JobType_eqb_eq a b : JobType_eqb a b = true <-> a = b.
Proof. destruct a, b; simpl; split; congruence. Qed.

Lemma session_is_eq sid j :
  session_is sid j = true <-> session_id j = Some sid.
Proof.
  unfold session_is. destruct (session_id j) as [s|].
  - destruct (String.eqb_spec s sid); split; congruence.
  - split; discriminate.
Qed.

(** The filters of [list] as they apply. *)
Definition selected (by_status : option JobStatus) (by_type : option JobType)
    (by_session : option string) (j : Job) : Prop :=
  (forall s, by_status = Some s -> status j = s)
  /\ (forall t, by_type = Some t -> job_type j = t)
  /\ (forall sid, by_session = Some sid -> sid <> "" ->
        session_id j = Some sid).

Lemma In_slice_to {A : Type} limit (l : list A) x :
  In x (slice_to limit l) -> In x l.
Proof. unfold slice_to. destruct (0 <=? limit)%Z; apply In_firstn. Qed.

Lemma StronglySorted_firstn {A : Type} (R : A -> A -> Prop) n l :
  StronglySorted R l -> StronglySorted R (firstn n l).
Proof.
  intros Hs. rewrite <- (firstn_skipn n l) in Hs.
  now apply StronglySorted_app in Hs as [Hs _].
Qed.

(** X13. [list] returns jobs of the table only, each passing every
    filter that applies (an empty [session_id] is no filter), ordered by
    [created_at] with the most recent first, and at most [limit] of them
    for a non-negative [limit]; when [limit] is not smaller than the number
    of jobs, every job passing the filters is returned. *)
Theorem list_filters_orders_truncates by_status by_type by_session limit q :
  (forall j, In j (list_jobs by_status by_type by_session limit q) ->
             In j (values (_jobs q))
             /\ selected by_status by_type by_session j)
  /\ StronglySorted newer_or_equal
       (list_jobs by_status by_type by_session limit q)
  /\ ((0 <= limit)%Z ->
      (Z.of_nat (length (list_jobs by_status by_type by_session limit q))
       <= limit)%Z)
  /\ ((Z.of_nat (length (_jobs q)) <= limit)%Z ->
      forall j, In j (values (_jobs q)) ->
                selected by_status by_type by_session j ->
                In j (list_jobs by_status by_type by_session limit q))
  /\ list_jobs by_status by_type (Some "") limit q
     = list_jobs by_status by_type None limit q.
Proof.
  unfold list_jobs.
  set (l0 := values (_jobs q)).
  set (l1 := match by_status with
             | Some s => List.filter (fun j => JobStatus_eqb (status j) s) l0
             | None => l0
             end).
  set (l2 := match by_type with
             | Some t => List.filter (fun j => JobType_eqb (job_type j) t) l1
             | None => l1
             end).
  set (l3 := match by_session with
             | Some sid =>
                 if truthy (Some sid) then List.filter (session_is sid) l2
                 else l2
             | None => l2
             end).
  assert (H1 : forall j, In j l1 <->
                 In j l0 /\ forall s, by_status = Some s -> status j = s).
  { intros j. unfold l1. destruct by_status as [s|].
    - rewrite filter_In, JobStatus_eqb_eq. split.
      + intros [Hin Hs]. split; [assumption|]. now intros s' [= <-].
      + intros [Hin Hs]. split; [assumption|]. now apply Hs.
    - split; [intros Hin; split; [assumption|discriminate]|tauto]. }
  assert (H2 : forall j, In j l2 <->
                 In j l1 /\ forall t, by_type = Some t -> job_type j = t).
  { intros j. unfold l2. destruct by_type as [t|].
    - rewrite filter_In, JobType_eqb_eq. split.
      + intros [Hin Hs]. split; [assumption|]. now intros t' [= <-].
      + intros [Hin Hs]. split; [assumption|]. now apply Hs.
    - split; [intros Hin; split; [assumption|discriminate]|tauto]. }
  assert (H3 : forall j, In j l3 <->
                 In j l2 /\ forall sid, by_session = Some sid -> sid <> "" ->
                                        session_id j = Some sid).
  { intros j. unfold l3. destruct by_session as [sid|].
    - destruct (String.eqb_spec sid "") as [->|Hne]; simpl.
      + split; [intros Hin; split; [assumption|]|tauto].
        intros sid' [= <-] Hne. congruence.
      + destruct (String.eqb_spec sid ""); [contradiction|]. simpl.
        rewrite filter_In, session_is_eq. split.
        * intros [Hin Hs]. split; [assumption|]. now intros sid' [= <-].
        * intros [Hin Hs]. split; [assumption|]. now apply Hs.
    - split; [intros Hin; split; [assumption|discriminate]|tauto]. }
  assert (H4 : forall j, In j l3 <->
                 In j l0 /\ selected by_status by_type by_session j).
  { intros j. rewrite H3, H2, H1. unfold selected. tauto. }
  split; [|split; [|split; [|split]]].
  - intros j Hin. apply In_slice_to in Hin.
    apply (Permutation_in _ (Permutation_sym (sorted_desc_perm l3))) in Hin.
    now apply H4.
  - unfold slice_to. destruct (0 <=? limit)%Z;
      apply StronglySorted_firstn, sorted_desc_sorted.
  - intros Hlim. unfold slice_to.
    destruct (Z.leb_spec 0 limit); [|lia].
    rewrite length_firstn. lia.
  - intros Hlen j Hin Hsel.
    assert (Hl3 : (length (sorted_desc l3) <= length l0)%nat).
    { rewrite <- (Permutation_length (sorted_desc_perm l3)).
      clear - l3. unfold l3, l2, l1.
      assert (Hf : forall (f : Job -> bool) l,
                 (length (List.filter f l) <= length l)%nat).
      { intros f l. induction l as [|x l IH]; simpl; [lia|].
        destruct (f x); simpl; lia. }
      destruct by_session as [sid|]; [destruct (truthy (Some sid))|];
        destruct by_type; destruct by_status;
        repeat (etransitivity; [apply Hf|]); lia. }
    assert (Hl0 : length l0 = length (_jobs q)).
    { unfold l0, values. now rewrite length_map. }
    unfold slice_to. destruct (Z.leb_spec 0 limit); [|lia].
    rewrite firstn_all2 by lia.
    apply (Permutation_in _ (sorted_desc_perm l3)). apply H4. now split.
  - reflexivity.
Qed.

(** *** wait *)

(** X14. When [wait] returns a job, the job is in a terminal status
    (Completed, Failed or Cancelled) and is the job the table held under
    that id at one of the polls. *)
Theorem wait_returns_terminal_job job_id timeout start polls job :
  wait_polls job_id timeout start polls = Some (Some job) ->
  is_terminal (status job) = true
  /\ exists q t, In (q, t) polls /\ get_job job_id q = Some job.
Proof.
  induction polls as [|[q t] rest IH]; simpl; [discriminate|].
  destruct (get_job job_id q) as [j|] eqn:Hget; [|discriminate].
  destruct (is_terminal (status j)) eqn:Ht.
  - intros [= <-]. split; [assumption|]. exists q, t. split; [now left|assumption].
  - assert (Hrest : wait_polls job_id timeout start rest = Some (Some job) ->
                    is_terminal (status job) = true
                    /\ exists q' t', In (q', t') ((q, t) :: rest)
                                     /\ get_job job_id q' = Some job).
    { intros H. destruct (IH H) as [H1 (q' & t' & Hin & Hg)].
      split; [assumption|]. exists q', t'. split; [now right|assumption]. }
    destruct timeout as [limit|]; [|exact Hrest].
    destruct (float_truthy (Some limit) && SFltb limit (SFsub 53 1024 t start));
      [discriminate|exact Hrest].
Qed.

(** X15. With no timeout, or with a timeout of [0.0] (which is falsy),
    [wait] never gives up: as long as the job is in the table and not in a
    terminal status, however many polls go by, it is still waiting. *)
Theorem wait_without_timeout_keeps_polling job_id timeout start polls :
  float_truthy timeout = false ->
  (forall q t, In (q, t) polls ->
     exists job, get_job job_id q = Some job
                 /\ is_terminal (status job) = false) ->
  wait_polls job_id timeout start polls = None.
Proof.
  intros Hto. induction polls as [|[q t] rest IH]; simpl; intros Hall;
    [reflexivity|].
  destruct (Hall q t (or_introl eq_refl)) as (job & -> & ->).
  rewrite Hto. simpl.
  assert (Hrest : wait_polls job_id timeout start rest = None).
  { apply IH. intros q' t' Hin. apply (Hall q' t'). now right. }
  destruct timeout; exact Hrest.
Qed.

(** [30.0] *)
Definition float_30 : float :=
  Eval vm_compute in binary_normalize 53 1024 30 0 false.

(** The job of [demo_running] once a worker has run it. *)
Definition demo_completed : JobQueue :=
  _process_job demo_iso 1 2 "job-2" demo_running.

Definition demo_completed_job : Job :=
  match get_job "job-2" demo_completed with
  | Some j => j
  | None => demo_job "job-2" FAILED None
  end.

Lemma wait_returns_terminal_job_witness :
  wait_polls "job-2" (Some float_30) float_0
    [(demo_running, float_1); (demo_completed, float_1_5)]
  = Some (Some demo_completed_job)
  /\ is_terminal (status demo_completed_job) = true.
Proof.
  assert (H : wait_polls "job-2" (Some float_30) float_0
                [(demo_running, float_1); (demo_completed, float_1_5)]
              = Some (Some demo_completed_job)) by reflexivity.
  split; [exact H|].
  exact (proj1 (wait_returns_terminal_job "job-2" (Some float_30) float_0
                  _ _ H)).
Defined.

Lemma wait_without_timeout_keeps_polling_witness :
  (float_truthy (Some float_0) = false
   /\ forall q t, In (q, t) [(demo_running, float_1); (demo_running, float_30)] ->
        exists job, get_job "job-2" q = Some job
                    /\ is_terminal (status job) = false)
  /\ wait_polls "job-2" (Some float_0) float_0
       [(demo_running, float_1); (demo_running, float_30)] = None.
Proof.
  assert (H : forall q t,
             In (q, t) [(demo_running, float_1); (demo_running, float_30)] ->
             exists job, get_job "job-2" q = Some job
                         /\ is_terminal (status job) = false).
  { intros q t [[= <- <-]|[[= <- <-]|[]]]; eexists; split; reflexivity. }
  split; [split; [reflexivity|exact H]|].
  exact (wait_without_timeout_keeps_polling "job-2" (Some float_0) float_0
           _ eq_refl H).
Defined.

(** *** The worker loop *)

Lemma queue_progress_callback job_id p message q :
  _queue (progress_callback job_id p message q) = _queue q.
Proof.
  unfold progress_callback, update.
  destruct (contains job_id (_jobs q)); [|reflexivity].
  destruct (get job_id (_jobs q)); reflexivity.
Qed.

Lemma queue_report_all job_id calls q :
  _queue (report_all job_id calls q) = _queue q.
Proof.
  revert q. induction calls as [|[p message] calls IH]; intros q;
    [reflexivity|].
  unfold report_all in *. simpl. rewrite IH. apply queue_progress_callback.
Qed.

Lemma queue_update job_id f q : _queue (update job_id f q) = _queue q.
Proof. unfold update. destruct (get job_id (_jobs q)); reflexivity. Qed.

Lemma queue_process_job isoformat now now' job_id q :
  _queue (_process_job isoformat now now' job_id q) = _queue q.
Proof.
  unfold _process_job, _process_job_claim.
  destruct (get job_id (_jobs q)) as [job|]; [|reflexivity].
  destruct (get job_id (_handlers q)) as [handler|]; [|reflexivity].
  fold (report_all job_id (progress_calls (handler (params job)))
          (_save_jobs
             (with_jobs
                (set job_id
                   (set_started_at (Some (isoformat now))
                      (set_status RUNNING job)) (_jobs q)) q))).
  destruct (returned (handler (params job))) as [result|e];
    unfold _process_job_finally, _process_job_completed, _process_job_failed;
    simpl; rewrite queue_update, queue_report_all; reflexivity.
Qed.

(** X28. One round of a worker consumes exactly the id at the front of
    the work queue, whatever happens to the job (unknown id, missing
    handler, handler returning or raising): the ids behind it keep their
    order and no id is ever put back, so no job is retried. *)
Theorem worker_round_consumes_front isoformat now now' q :
  _queue (worker_round isoformat now now' q) = tl (_queue q).
Proof.
  unfold worker_round. destruct (_queue q) as [|job_id rest] eqn:E.
  - simpl. exact E.
  - now rewrite queue_process_job.
Qed.

End JobsFacts.

(** ** The session manager *)

Module SessionsFacts.
Import PyDict PyDictFacts Sessions.

Lemma path_exists_unlink p m : path_exists p (unlink_if_exists p m) = false.
Proof.
  unfold unlink_if_exists. destruct (path_exists p m) eqn:E; [|assumption].
  unfold path_exists. simpl. apply bool_decide_eq_false.
  intros H. apply elem_of_difference in H as [_ H].
  apply H. now apply elem_of_singleton.
Qed.

Lemma sessions_unlink p m : sessions (unlink_if_exists p m) = sessions m.
Proof. unfold unlink_if_exists. destruct (path_exists p m); reflexivity. Qed.

Lemma current_unlink p m :
  current_session_id (unlink_if_exists p m) = current_session_id m.
Proof. unfold unlink_if_exists. destruct (path_exists p m); reflexivity. Qed.

Lemma path_exists_unlink_other p p' m :
  p' <> p -> path_exists p' (unlink_if_exists p m) = path_exists p' m.
Proof.
  intros Hne. unfold unlink_if_exists.
  destruct (path_exists p m); [|reflexivity].
  unfold path_exists. simpl. apply bool_decide_ext.
  rewrite elem_of_difference, elem_of_singleton. tauto.
Qed.

Lemma py_or_None c : py_or None c = c.
Proof. reflexivity. Qed.

Lemma py_or_same c : py_or c c = c.
Proof. unfold py_or. destruct (truthy c); reflexivity. Qed.

Lemma truthy_Some s : truthy (Some s) = true <-> s <> "".
Proof.
  simpl. destruct (String.eqb_spec s ""); simpl; split; congruence.
Qed.

(** *** reset *)

Section Reset.
Variable FGP_SESSIONS_DIR : string.
Variable isoformat : Z -> string.

(** C7. [reset] on the session it resolves to ([session_id], or the current
    session when [session_id] is omitted) returns and stores that session
    with [modified_at] set to the current time and with [id], [name],
    [blend_file], [created_at], [is_default] and [metadata] as before; the
    backing file does not exist afterwards; the other sessions and the
    current pointer are unchanged. *)
Theorem reset_keeps_identity now session_id m sid session :
  py_or session_id (current_session_id m) = Some sid ->
  sid <> "" ->
  get_session sid m = Some session ->
  let m' := fst (reset isoformat now session_id m) in
  let session' := set_modified_at (isoformat now) session in
  snd (reset isoformat now session_id m) = Ok session'
  /\ get_session sid m' = Some session'
  /\ id session' = id session
  /\ name session' = name session
  /\ is_default session' = is_default session
  /\ metadata session' = metadata session
  /\ created_at session' = created_at session
  /\ blend_file session' = blend_file session
  /\ modified_at session' = isoformat now
  /\ path_exists (blend_file session) m' = false
  /\ (forall k, k <> sid -> get_session k m' = get_session k m)
  /\ current_session_id m' = current_session_id m
  /\ reset isoformat now None m =
       reset isoformat now (current_session_id m) m.
Proof.
  intros Hsid Hne Hget m' session'. subst m'.
  unfold reset. rewrite py_or_None, py_or_same, Hsid.
  apply truthy_Some in Hne. rewrite Hne. simpl negb. cbv iota.
  unfold get_session in Hget. rewrite Hget. simpl.
  repeat split.
  - unfold get_session. simpl. apply get_set_eq.
  - apply path_exists_unlink.
  - intros k Hk. unfold get_session. simpl.
    rewrite get_set_ne by assumption. now rewrite sessions_unlink.
  - apply current_unlink.
Qed.

End Reset.

(** *** delete *)

(** What holds of every manager the operations produce: the index is a
    dictionary keyed by the sessions' own, non-empty ids, and it holds a
    default session. *)
Definition keyed_by_id (m : SessionManager) : Prop :=
  forall k s, In (k, s) (sessions m) -> id s = k /\ k <> "".

Definition has_default (m : SessionManager) : Prop :=
  exists d, default_session m = Some d.

Lemma default_session_spec m d :
  default_session m = Some d ->
  is_default d = true /\ exists k, In (k, d) (sessions m).
Proof.
  unfold default_session, first_value, values. intros H.
  apply find_some in H as [Hin Hd]. split; [assumption|].
  apply in_map_iff in Hin as ([k s] & Hs & Hin). simpl in Hs. subst s. eauto.
Qed.

Lemma default_session_exists m k s :
  In (k, s) (sessions m) -> is_default s = true -> has_default m.
Proof.
  intros Hin Hd. unfold has_default, default_session, first_value.
  destruct (List.find is_default (values (sessions m))) as [d|] eqn:E; [eauto|].
  exfalso. pose proof (find_none _ _ E s) as Hn.
  rewrite Hn in Hd; [discriminate|].
  unfold values. change s with (snd (k, s)). now apply in_map.
Qed.

Lemma delete_default session_id m session :
  get_session session_id m = Some session -> is_default session = true ->
  delete session_id m = (m, Raise (ValueError "Cannot delete default session")).
Proof. unfold get_session, delete. intros -> ->. reflexivity. Qed.

Lemma delete_unknown session_id m :
  get_session session_id m = None -> delete session_id m = (m, Ok false).
Proof. unfold get_session, delete. intros ->. reflexivity. Qed.

Lemma delete_other session_id m session :
  get_session session_id m = Some session -> is_default session = false ->
  delete session_id m =
    (_save_sessions
       (switch_to_default_if_current session_id
          (with_sessions (del session_id (sessions m))
             (unlink_if_exists (blend_file session) m))),
     Ok true).
Proof.
  unfold get_session, delete. intros -> ->. now rewrite sessions_unlink.
Qed.

Lemma sessions_repoint session_id m :
  sessions (switch_to_default_if_current session_id m) = sessions m.
Proof.
  unfold switch_to_default_if_current.
  destruct (current_session_id m) as [c|]; [|reflexivity].
  destruct (String.eqb c session_id); [|reflexivity].
  destruct (default_session m); reflexivity.
Qed.

Lemma disk_repoint session_id m :
  disk (switch_to_default_if_current session_id m) = disk m.
Proof.
  unfold switch_to_default_if_current.
  destruct (current_session_id m) as [c|]; [|reflexivity].
  destruct (String.eqb c session_id); [|reflexivity].
  destruct (default_session m); reflexivity.
Qed.

Lemma current_repoint_other session_id m :
  current_session_id m <> Some session_id ->
  current_session_id (switch_to_default_if_current session_id m)
  = current_session_id m.
Proof.
  unfold switch_to_default_if_current. intros H.
  destruct (current_session_id m) as [c|] eqn:E; [|exact E].
  destruct (String.eqb_spec c session_id); [congruence|exact E].
Qed.

Lemma current_repoint_current session_id m d :
  current_session_id m = Some session_id -> default_session m = Some d ->
  current_session_id (switch_to_default_if_current session_id m)
  = Some (id d).
Proof.
  unfold switch_to_default_if_current. intros -> ->.
  now rewrite String.eqb_refl.
Qed.

(** C5. In a manager whose index is a dictionary keyed by the sessions'
    ids and holds a default session: [delete] on a session flagged
    [is_default] raises the "Cannot delete default session" error and
    leaves the whole state (index, files, current pointer) as it was;
    [delete] on another existing session returns true, the session is no
    longer in the index nor in [list()], the other sessions stay, its
    backing file does not exist afterwards, and if it was the current
    session the current pointer is the id of a default session, which
    [get_current()] returns; otherwise the pointer is unchanged. *)
Theorem delete_spares_default session_id m session :
  wf (sessions m) -> keyed_by_id m -> has_default m ->
  get_session session_id m = Some session ->
  (is_default session = true ->
     delete session_id m =
       (m, Raise (ValueError "Cannot delete default session")))
  /\ (is_default session = false ->
        let m' := fst (delete session_id m) in
        snd (delete session_id m) = Ok true
        /\ get_session session_id m' = None
        /\ ~ In session (list_sessions m')
        /\ (forall s, In s (list_sessions m') -> In s (list_sessions m))
        /\ (forall k, k <> session_id -> get_session k m' = get_session k m)
        /\ path_exists (blend_file session) m' = false
        /\ (current_session_id m = Some session_id ->
              exists d, is_default d = true
                        /\ current_session_id m' = Some (id d)
                        /\ get_current m' = Some d)
        /\ (current_session_id m <> Some session_id ->
              current_session_id m' = current_session_id m)).
Proof.
  intros Hwf Hkey [d0 Hd0] Hget. split.
  - now apply delete_default.
  - intros Hnd m'. subst m'. rewrite (delete_other _ _ _ Hget Hnd). simpl.
    set (m2 := with_sessions (del session_id (sessions m))
                 (unlink_if_exists (blend_file session) m)).
    assert (Hs2 : sessions m2 = del session_id (sessions m)) by reflexivity.
    assert (Hlist : forall s, In s (list_sessions m2) ->
              exists k, k <> session_id /\ In (k, s) (sessions m)).
    { intros s Hin. unfold list_sessions, values in Hin. rewrite Hs2 in Hin.
      apply in_map_iff in Hin as ([k s'] & Heq & Hin). simpl in Heq. subst s'.
      apply In_del in Hin. eauto. }
    unfold get_session, list_sessions. simpl.
    rewrite !sessions_repoint, Hs2.
    split; [reflexivity|]. split; [apply get_del_eq|]. split; [|split].
    { intros Hin. destruct (Hlist session Hin) as (k & Hk & Hin').
      apply Hkey in Hin' as [Hid _].
      apply get_Some_In in Hget. apply Hkey in Hget as [Hid' _]. congruence. }
    { intros s Hin. destruct (Hlist s Hin) as (k & _ & Hin').
      unfold values. change s with (snd (k, s)). now apply in_map. }
    split; [intros k Hk; now apply get_del_ne|]. split.
    { unfold path_exists. simpl. rewrite disk_repoint.
      apply (path_exists_unlink (blend_file session) m). }
    assert (Hcur2 : current_session_id m2 = current_session_id m)
      by apply current_unlink.
    split.
    + intros Hcur.
      destruct (default_session_spec m d0 Hd0) as [Hdef0 [k0 Hin0]].
      assert (Hk0 : k0 <> session_id).
      { intros ->. apply (In_get _ _ _ Hwf) in Hin0.
        unfold get_session in Hget. congruence. }
      assert (Hhas : has_default m2).
      { apply (default_session_exists m2 k0 d0); [|assumption].
        rewrite Hs2. apply In_del. now split. }
      destruct Hhas as [d Hd].
      destruct (default_session_spec m2 d Hd) as [Hdef [k Hin]].
      rewrite Hs2 in Hin. pose proof Hin as Hin2.
      apply In_del in Hin as [Hk Hin].
      destruct (Hkey _ _ Hin) as [Hid Hne].
      exists d. split; [assumption|].
      assert (Hc : current_session_id (switch_to_default_if_current session_id m2)
                   = Some (id d)).
      { apply current_repoint_current; [now rewrite Hcur2|assumption]. }
      split; [assumption|].
      unfold get_current. simpl. rewrite Hc, sessions_repoint, Hs2.
      rewrite Hid. apply truthy_Some in Hne. simpl in Hne. rewrite Hne.
      apply In_get; [now apply wf_del|assumption].
    + intros Hcur. rewrite current_repoint_other; [assumption|].
      now rewrite Hcur2.
Qed.

(** *** A running example *)

(** A manager booted on an empty directory, with one named session created
    and saved by the worker, and made current. *)
Definition demo_dir : string := "/home/u/.fgp/services/blender/sessions".
Definition demo_iso (t : Z) : string :=
  if (t <? 10)%Z then "2026-01-17T10:00:00+00:00"
  else "2026-01-17T11:30:00.500000+00:00".

(** The worker writes the backing file of a session on its first save. *)
Definition worker_saves (p : string) (m : SessionManager) : SessionManager :=
  with_disk ({[ p ]} ∪ disk m) m.

Definition demo_scene : Session :=
  mkSession "a1b2c3d4" "scene" (demo_dir ++ "/a1b2c3d4.blend")
            "2026-01-17T10:00:00+00:00" "2026-01-17T10:00:00+00:00" false [].

Definition demo_default : Session :=
  mkSession "default" "Default" (demo_dir ++ "/default.blend")
            "2026-01-17T10:00:00+00:00" "2026-01-17T10:00:00+00:00" true [].

Definition demo_manager : SessionManager :=
  let m0 := init demo_dir demo_iso 0 ∅ NoFile in
  let m1 := fst (create demo_dir demo_iso "a1b2c3d4" 1 "scene" None m0) in
  let m2 := worker_saves (demo_dir ++ "/a1b2c3d4.blend") m1 in
  fst (switch "a1b2c3d4" m2).

Lemma demo_manager_sessions :
  sessions demo_manager = [("default", demo_default); ("a1b2c3d4", demo_scene)].
Proof. reflexivity. Qed.

Lemma demo_manager_current :
  current_session_id demo_manager = Some "a1b2c3d4".
Proof. reflexivity. Qed.

Lemma demo_manager_wf : wf (sessions demo_manager).
Proof.
  rewrite demo_manager_sessions. unfold wf. simpl.
  repeat constructor; simpl; intuition discriminate.
Qed.

Lemma demo_manager_keyed : keyed_by_id demo_manager.
Proof.
  unfold keyed_by_id. rewrite demo_manager_sessions.
  intros k s [H|[H|[]]]; injection H as <- <-;
    (split; [reflexivity|discriminate]).
Qed.

Lemma demo_manager_has_default : has_default demo_manager.
Proof. exists demo_default. reflexivity. Qed.

Lemma delete_spares_default_witness :
  (wf (sessions demo_manager) /\ keyed_by_id demo_manager
   /\ has_default demo_manager
   /\ get_session "a1b2c3d4" demo_manager = Some demo_scene)
  /\ snd (delete "a1b2c3d4" demo_manager) = Ok true
  /\ get_session "a1b2c3d4" (fst (delete "a1b2c3d4" demo_manager)) = None
  /\ path_exists (blend_file demo_scene)
       (fst (delete "a1b2c3d4" demo_manager)) = false.
Proof.
  split.
  - split; [exact demo_manager_wf|]. split; [exact demo_manager_keyed|].
    split; [exact demo_manager_has_default|reflexivity].
  - destruct (delete_spares_default "a1b2c3d4" demo_manager demo_scene
                demo_manager_wf demo_manager_keyed demo_manager_has_default
                eq_refl) as [_ H].
    destruct (H eq_refl) as (Hr & Hg & _ & _ & _ & Hp & _).
    exact (conj Hr (conj Hg Hp)).
Defined.

Lemma reset_keeps_identity_witness :
  (py_or None (current_session_id demo_manager) = Some "a1b2c3d4"
   /\ "a1b2c3d4" <> ""
   /\ get_session "a1b2c3d4" demo_manager = Some demo_scene)
  /\ snd (reset demo_iso 20 None demo_manager) =
       Ok (set_modified_at "2026-01-17T11:30:00.500000+00:00" demo_scene)
  /\ path_exists (blend_file demo_scene)
       (fst (reset demo_iso 20 None demo_manager)) = false.
Proof.
  assert (Hne : "a1b2c3d4" <> "") by discriminate.
  split.
  - split; [reflexivity|]. split; [exact Hne|reflexivity].
  - destruct (reset_keeps_identity demo_iso 20 None demo_manager "a1b2c3d4"
                demo_scene eq_refl Hne eq_refl)
      as (Hr & _ & _ & _ & _ & _ & _ & _ & _ & Hp & _).
    exact (conj Hr Hp).
Defined.

(** *** switch and the current pointer *)

Section CurrentPointer.
Variable FGP_SESSIONS_DIR : string.
Variable isoformat : Z -> string.

Lemma switch_unknown session_id m :
  get_session session_id m = None ->
  switch session_id m =
    (m, Raise (ValueError ("Session not found: " ++ session_id))).
Proof. unfold get_session, switch. intros ->. reflexivity. Qed.

Lemma switch_known session_id m session :
  get_session session_id m = Some session ->
  switch session_id m =
    (_save_sessions (with_current (Some session_id) m), Ok session).
Proof. unfold get_session, switch. intros ->. reflexivity. Qed.

Lemma current_reset now session_id m :
  current_session_id (fst (reset isoformat now session_id m))
  = current_session_id m.
Proof.
  unfold reset.
  destruct (py_or session_id (current_session_id m)) as [sid|]; [|reflexivity].
  destruct (negb (truthy (Some sid))); [reflexivity|].
  destruct (get sid (sessions m)); [|reflexivity].
  simpl. apply current_unlink.
Qed.

Lemma current_update_modified now session_id m :
  current_session_id (update_modified isoformat now session_id m)
  = current_session_id m.
Proof.
  unfold update_modified.
  destruct (py_or session_id (current_session_id m)) as [sid|]; [|reflexivity].
  destruct (truthy (Some sid)); [|reflexivity].
  destruct (get sid (sessions m)); reflexivity.
Qed.

(** C9, as the code has it. [switch] on an id that is not in the index
    raises the "Session not found" error and leaves the state, so the
    current pointer, unchanged; on an id that is in the index it returns
    that session and sets the current pointer to the id.  Any operation
    that changes the current pointer is either such a successful [switch],
    or a successful [delete] of the current session, a session that is not
    flagged default; the pointer is then the id of the default session [d]:
    the first session flagged default of the index that [delete] leaves,
    one that [list()] returned before and returns after, and, in an index
    keyed by the sessions' ids, the one [get_current()] returns. *)
Theorem current_changes_by_switch_or_delete m :
  (forall session_id,
      get_session session_id m = None ->
      switch session_id m =
        (m, Raise (ValueError ("Session not found: " ++ session_id))))
  /\ (forall session_id session,
        get_session session_id m = Some session ->
        snd (switch session_id m) = Ok session
        /\ current_session_id (fst (switch session_id m)) = Some session_id)
  /\ (forall op,
        current_session_id (fst (run FGP_SESSIONS_DIR isoformat op m))
          <> current_session_id m ->
        (exists session_id session,
            op = OpSwitch session_id
            /\ get_session session_id m = Some session
            /\ current_session_id (fst (run FGP_SESSIONS_DIR isoformat op m))
               = Some session_id)
        \/ (exists session_id session d,
              op = OpDelete session_id
              /\ current_session_id m = Some session_id
              /\ get_session session_id m = Some session
              /\ is_default session = false
              /\ snd (delete session_id m) = Ok true
              /\ default_session (fst (run FGP_SESSIONS_DIR isoformat op m))
                 = Some d
              /\ is_default d = true
              /\ In d (list_sessions m)
              /\ In d (list_sessions (fst (run FGP_SESSIONS_DIR isoformat op m)))
              /\ current_session_id (fst (run FGP_SESSIONS_DIR isoformat op m))
                 = Some (id d)
              /\ (wf (sessions m) -> keyed_by_id m ->
                  get_current (fst (run FGP_SESSIONS_DIR isoformat op m))
                  = Some d))).
Proof.
  split; [intros sid H; now apply switch_unknown|]. split.
  { intros session_id session H. now rewrite (switch_known _ _ _ H). }
  intros [sid now nm md|sid| |sid| |sid|now sid|now sid|sid] Hch; simpl in Hch;
    try (exfalso; apply Hch; reflexivity).
  - left. destruct (get_session sid m) as [session|] eqn:Hget.
    + exists sid, session. split; [reflexivity|]. split; [exact Hget|].
      simpl. now rewrite (switch_known _ _ _ Hget).
    + rewrite (switch_unknown _ _ Hget) in Hch. exfalso. now apply Hch.
  - right. destruct (get_session sid m) as [session|] eqn:Hget.
    2:{ rewrite (delete_unknown _ _ Hget) in Hch. exfalso. now apply Hch. }
    destruct (is_default session) eqn:Hdef.
    { rewrite (delete_default _ _ _ Hget Hdef) in Hch. exfalso. now apply Hch. }
    pose (m2 := with_sessions (del sid (sessions m))
                  (unlink_if_exists (blend_file session) m)).
    assert (Hdel : delete sid m =
                     (_save_sessions (switch_to_default_if_current sid m2),
                      Ok true))
      by (apply delete_other; assumption).
    assert (Hs2 : sessions m2 = del sid (sessions m)) by reflexivity.
    assert (Hcur2 : current_session_id m2 = current_session_id m)
      by apply current_unlink.
    cbn [run fst]. rewrite Hdel in Hch |- *. cbn [fst snd] in Hch |- *.
    assert (Hfs : sessions (_save_sessions (switch_to_default_if_current sid m2))
                  = del sid (sessions m)).
    { change (sessions (switch_to_default_if_current sid m2)
              = del sid (sessions m)).
      now rewrite sessions_repoint. }
    assert (Hfc : current_session_id
                    (_save_sessions (switch_to_default_if_current sid m2))
                  = current_session_id (switch_to_default_if_current sid m2))
      by reflexivity.
    rewrite Hfc in Hch |- *.
    destruct (option_eq_dec (current_session_id m) (Some sid)) as [Hcur|Hcur].
    + destruct (default_session m2) as [d|] eqn:Hd.
      * exists sid, session, d.
        destruct (default_session_spec m2 d Hd) as [Hdd [k Hin]].
        rewrite Hs2 in Hin. pose proof Hin as Hin2.
        apply In_del in Hin as [Hk Hin].
        assert (Hc : current_session_id (switch_to_default_if_current sid m2)
                     = Some (id d)).
        { apply current_repoint_current; [now rewrite Hcur2|assumption]. }
        split; [reflexivity|]. split; [assumption|].
        split; [assumption|]. split; [assumption|].
        split; [now rewrite Hdel|].
        split.
        { unfold default_session in Hd |- *. now rewrite Hfs, <- Hs2. }
        split; [assumption|]. split.
        { unfold list_sessions. apply In_values. eauto. }
        split.
        { unfold list_sessions. rewrite Hfs. apply In_values. eauto. }
        split; [assumption|].
        intros Hwf Hkey. destruct (Hkey _ _ Hin) as [Hid Hne].
        unfold get_current. rewrite Hfc, Hc, Hfs, Hid.
        apply truthy_Some in Hne. cbv beta iota. rewrite Hne.
        apply In_get; [now apply wf_del|assumption].
      * exfalso. apply Hch. unfold switch_to_default_if_current.
        rewrite Hd, Hcur2, Hcur, String.eqb_refl. now rewrite Hcur2.
    + exfalso. apply Hch. rewrite current_repoint_other; [assumption|].
      now rewrite Hcur2.
  - exfalso. apply Hch. apply current_reset.
  - exfalso. apply Hch. apply current_update_modified.
Qed.

End CurrentPointer.

(** C9, as stated, fails: [delete] of the current session is not a
    [switch] and changes the current pointer (here from ["a1b2c3d4"] to
    ["default"]). *)
Lemma delete_moves_current_pointer :
  ~ (forall (m : SessionManager) (op : Op),
        (forall session_id, op <> OpSwitch session_id) ->
        current_session_id (fst (run demo_dir demo_iso op m))
        = current_session_id m).
Proof.
  intros H.
  specialize (H demo_manager (OpDelete "a1b2c3d4")).
  assert (Hop : forall session_id, OpDelete "a1b2c3d4" <> OpSwitch session_id)
    by discriminate.
  specialize (H Hop).
  rewrite demo_manager_current in H.
  vm_compute in H. discriminate H.
Qed.

(** C9 on the running example: [delete] of the current session moves
    the pointer to ["default"], the session [get_current()] then returns. *)
Lemma current_changes_by_switch_or_delete_witness :
  current_session_id demo_manager = Some "a1b2c3d4"
  /\ current_session_id
       (fst (run demo_dir demo_iso (OpDelete "a1b2c3d4") demo_manager))
     = Some "default"
  /\ In demo_default
       (list_sessions
          (fst (run demo_dir demo_iso (OpDelete "a1b2c3d4") demo_manager)))
  /\ get_current
       (fst (run demo_dir demo_iso (OpDelete "a1b2c3d4") demo_manager))
     = Some demo_default.
Proof.
  split; [reflexivity|].
  destruct (current_changes_by_switch_or_delete demo_dir demo_iso demo_manager)
    as (_ & _ & H).
  assert (Hch : current_session_id
                  (fst (run demo_dir demo_iso (OpDelete "a1b2c3d4") demo_manager))
                <> current_session_id demo_manager).
  { vm_compute. discriminate. }
  destruct (H _ Hch)
    as [(sid & session & Hop & _)
       |(sid & session & d & Hop & _ & _ & _ & _ & Hd & _ & _ & Hin & Hc & Hg)].
  - discriminate Hop.
  - assert (Hd' : default_session
                    (fst (run demo_dir demo_iso (OpDelete "a1b2c3d4")
                            demo_manager)) = Some demo_default)
      by reflexivity.
    rewrite Hd' in Hd. injection Hd as <-.
    split; [exact Hc|]. split; [exact Hin|].
    exact (Hg demo_manager_wf demo_manager_keyed).
Defined.

(** *** What holds of every manager the operations build *)

(** The index is a dictionary keyed by the sessions' non-empty ids. *)
Definition keyed_ok (d : dict Session) : Prop :=
  wf d /\ forall k s, In (k, s) d -> id s = k /\ k <> "".

(** ... and it holds a default session. *)
Definition index_ok (d : dict Session) : Prop :=
  keyed_ok d /\ exists k s, In (k, s) d /\ is_default s = true.

Definition consistent (m : SessionManager) : Prop := index_ok (sessions m).

(** A consistent manager satisfies the hypotheses of the theorem on
    [delete]. *)
Lemma consistent_hypotheses m :
  consistent m -> wf (sessions m) /\ keyed_by_id m /\ has_default m.
Proof.
  intros [[Hwf Hkey] (k & s & Hin & Hd)].
  split; [assumption|]. split; [assumption|].
  exact (default_session_exists m k s Hin Hd).
Qed.

Lemma keyed_ok_set k s d :
  keyed_ok d -> id s = k -> k <> "" -> keyed_ok (set k s d).
Proof.
  intros [Hwf Hkey] Hid Hne. split; [now apply wf_set|].
  intros k' s' Hin. apply In_set in Hin as [[-> ->]|Hin]; auto.
Qed.

Lemma index_ok_set_fresh k s d :
  index_ok d -> get k d = None -> id s = k -> k <> "" -> index_ok (set k s d).
Proof.
  intros [Hk (k0 & d0 & Hin & Hd)] Hget Hid Hne.
  split; [now apply keyed_ok_set|].
  exists k0, d0. split; [|assumption].
  apply In_set_other; [|assumption].
  intros ->. apply get_None_keys in Hget. apply Hget.
  apply In_keys. eauto.
Qed.

Lemma index_ok_set_touch k s s' d :
  index_ok d -> get k d = Some s -> id s' = id s ->
  is_default s' = is_default s -> index_ok (set k s' d).
Proof.
  intros [[Hwf Hkey] (k0 & d0 & Hin & Hd)] Hget Hid Hdef.
  destruct (Hkey k s (get_Some_In _ _ _ Hget)) as [Hids Hne].
  split; [apply keyed_ok_set; [now split|congruence|assumption]|].
  destruct (String.eqb_spec k0 k) as [->|Hk0].
  - exists k, s'. split; [apply In_set_same|].
    rewrite (In_get _ _ _ Hwf Hin) in Hget. injection Hget as <-. congruence.
  - exists k0, d0. split; [now apply In_set_other|assumption].
Qed.

Lemma index_ok_del k s d :
  index_ok d -> get k d = Some s -> is_default s = false -> index_ok (del k d).
Proof.
  intros [[Hwf Hkey] (k0 & d0 & Hin & Hd)] Hget Hdef. split; [split|].
  - now apply wf_del.
  - intros k' s' Hin'. apply In_del in Hin' as [_ Hin']. auto.
  - exists k0, d0. split; [|assumption]. apply In_del. split; [|assumption].
    intros ->. rewrite (In_get _ _ _ Hwf Hin) in Hget. congruence.
Qed.

Lemma keyed_ok_load data m :
  (forall s, In s data -> id s <> "") ->
  keyed_ok (sessions m) -> keyed_ok (sessions (fold_left load_step data m)).
Proof.
  revert m. induction data as [|s data IH]; intros m Hids Hok; simpl;
    [assumption|].
  apply IH; [intros s' H; apply Hids; now right|].
  unfold load_step. destruct (path_exists (blend_file s) m); [|assumption].
  simpl. apply keyed_ok_set; [assumption|reflexivity|].
  apply Hids. now left.
Qed.

(** The ids in [sessions.json] are not empty. *)
Definition file_ok (file : SessionsFile) : Prop :=
  match file with
  | SessionsDoc data _ => forall s, In s data -> id s <> ""
  | NoFile | NotJson => True
  end.

Section Reachable.
Variable FGP_SESSIONS_DIR : string.
Variable isoformat : Z -> string.

Lemma consistent_init now files file :
  file_ok file -> consistent (init FGP_SESSIONS_DIR isoformat now files file).
Proof.
  intros Hfile. unfold init.
  set (m1 := _load_sessions (mkSessionManager [] None files file)).
  assert (H1 : keyed_ok (sessions m1)).
  { assert (H0 : keyed_ok (sessions (mkSessionManager [] None files file))).
    { split; simpl; [constructor|tauto]. }
    unfold m1, _load_sessions. simpl. destruct file; try assumption.
    now apply keyed_ok_load. }
  set (m2 := if existsb is_default (values (sessions m1)) then m1
             else fst (_create_default_session FGP_SESSIONS_DIR isoformat now m1)).
  assert (H2 : consistent m2).
  { unfold m2. destruct (existsb is_default (values (sessions m1))) eqn:E.
    - split; [assumption|].
      apply existsb_exists in E as (d & Hin & Hd).
      apply In_values in Hin as [k Hin]. eauto.
    - unfold consistent. simpl. split.
      + apply keyed_ok_set; [assumption|reflexivity|discriminate].
      + eexists _, _. split; [apply In_set_same|reflexivity]. }
  destruct (default_session m2); assumption.
Qed.

(** The steps of a manager: its operations, [create] with a fresh uuid, and
    the worker writing a backing file. *)
Inductive step : SessionManager -> SessionManager -> Prop :=
| step_create session_id now nm md m :
    session_id <> "" -> get_session session_id m = None ->
    step m (fst (create FGP_SESSIONS_DIR isoformat session_id now nm md m))
| step_switch session_id m :
    step m (fst (switch session_id m))
| step_delete session_id m :
    step m (fst (delete session_id m))
| step_reset now session_id m :
    step m (fst (reset isoformat now session_id m))
| step_update_modified now session_id m :
    step m (update_modified isoformat now session_id m)
| step_worker_saves p m :
    step m (worker_saves p m).

Inductive reachable : SessionManager -> Prop :=
| reachable_boot now files file :
    file_ok file ->
    reachable (init FGP_SESSIONS_DIR isoformat now files file)
| reachable_step m m' : reachable m -> step m m' -> reachable m'.

Lemma step_consistent m m' : step m m' -> consistent m -> consistent m'.
Proof.
  intros Hstep Hok. unfold consistent in *. destruct Hstep.
  - simpl. now apply index_ok_set_fresh.
  - unfold switch. destruct (get session_id (sessions m)); assumption.
  - destruct (get_session session_id m) as [s|] eqn:Hget.
    + destruct (is_default s) eqn:Hdef.
      * now rewrite (delete_default _ _ _ Hget Hdef).
      * rewrite (delete_other _ _ _ Hget Hdef). simpl.
        rewrite sessions_repoint. simpl.
        now apply (index_ok_del session_id s).
    + now rewrite (delete_unknown _ _ Hget).
  - unfold reset.
    destruct (py_or session_id (current_session_id m)) as [sid|];
      [|assumption].
    destruct (negb (truthy (Some sid))); [assumption|].
    destruct (get sid (sessions m)) as [s|] eqn:Hget; [|assumption].
    simpl. rewrite sessions_unlink.
    now apply (index_ok_set_touch sid s).
  - unfold update_modified.
    destruct (py_or session_id (current_session_id m)) as [sid|];
      [|assumption].
    destruct (truthy (Some sid)); [|assumption].
    destruct (get sid (sessions m)) as [s|] eqn:Hget; [|assumption].
    simpl. now apply (index_ok_set_touch sid s).
  - assumption.
Qed.

(** X20. Every manager built by boot and the operations is consistent:
    its index is a dictionary keyed by the sessions' non-empty ids and
    holds a default session. *)
Lemma reachable_consistent m : reachable m -> consistent m.
Proof.
  induction 1 as [now files file Hfile|m m' _ IH Hstep].
  - now apply consistent_init.
  - exact (step_consistent m m' Hstep IH).
Qed.

End Reachable.

(** *** Boot *)

Section Boot.
Variable FGP_SESSIONS_DIR : string.
Variable isoformat : Z -> string.

Lemma init_current now files file d :
  default_session (init FGP_SESSIONS_DIR isoformat now files file) = Some d ->
  current_session_id (init FGP_SESSIONS_DIR isoformat now files file)
  = Some (id d).
Proof.
  unfold init.
  set (m2 := if existsb is_default
                  (values (sessions (_load_sessions
                                       (mkSessionManager [] None files file))))
             then _load_sessions (mkSessionManager [] None files file)
             else fst (_create_default_session FGP_SESSIONS_DIR isoformat now
                         (_load_sessions (mkSessionManager [] None files file)))).
  destruct (default_session m2) as [d'|] eqn:E.
  - unfold default_session in *. simpl. rewrite E. now intros [= ->].
  - rewrite E. discriminate.
Qed.

(** X16. After [__init__], on a [sessions.json] whose ids are not empty
    (or on none), the current pointer is the id of a session flagged
    [is_default], and [get_current()] returns that session. *)
Theorem boot_makes_default_current now files file :
  file_ok file ->
  exists d,
    is_default d = true
    /\ current_session_id (init FGP_SESSIONS_DIR isoformat now files file)
       = Some (id d)
    /\ get_current (init FGP_SESSIONS_DIR isoformat now files file) = Some d.
Proof.
  intros Hfile.
  pose proof (consistent_init FGP_SESSIONS_DIR isoformat now files file Hfile)
    as Hc.
  destruct (consistent_hypotheses _ Hc) as (Hwf & Hkey & [d Hd]).
  destruct (default_session_spec _ d Hd) as [Hdef [k Hin]].
  destruct (Hkey k d Hin) as [Hid Hne].
  pose proof (init_current now files file d Hd) as Hcur.
  exists d. split; [assumption|]. split; [assumption|].
  unfold get_current. rewrite Hcur, Hid.
  apply truthy_Some in Hne. simpl in Hne. simpl. rewrite Hne.
  now apply In_get.
Qed.

Lemma load_step_same m m' s :
  sessions m = sessions m' -> disk m = disk m' ->
  sessions (load_step m s) = sessions (load_step m' s)
  /\ disk (load_step m s) = disk (load_step m' s).
Proof.
  intros Hs Hd. unfold load_step, path_exists. rewrite Hd.
  destruct (bool_decide (blend_file s ∈ disk m')); simpl; now rewrite ?Hs.
Qed.

Lemma load_fold_same data m m' :
  sessions m = sessions m' -> disk m = disk m' ->
  sessions (fold_left load_step data m) = sessions (fold_left load_step data m')
  /\ disk (fold_left load_step data m) = disk (fold_left load_step data m').
Proof.
  revert m m'. induction data as [|s data IH]; intros m m' Hs Hd; simpl;
    [now split|].
  destruct (load_step_same m m' s Hs Hd). now apply IH.
Qed.

Lemma load_fold_current data m :
  current_session_id (fold_left load_step data m) = current_session_id m.
Proof.
  revert m. induction data as [|s data IH]; intros m; simpl; [reflexivity|].
  rewrite IH. unfold load_step. destruct (path_exists _ _); reflexivity.
Qed.

(** The part of [__init__] after [_load_sessions]. *)
Definition after_load (now : Z) (m1 : SessionManager) : SessionManager :=
  let m2 := if existsb is_default (values (sessions m1)) then m1
            else fst (_create_default_session FGP_SESSIONS_DIR isoformat now m1) in
  match default_session m2 with
  | Some default => with_current (Some (id default)) m2
  | None => m2
  end.

Lemma after_load_same now m1 m1' :
  sessions m1 = sessions m1' ->
  current_session_id m1 = current_session_id m1' ->
  sessions (after_load now m1) = sessions (after_load now m1')
  /\ current_session_id (after_load now m1)
     = current_session_id (after_load now m1').
Proof.
  intros Hs Hc. unfold after_load. rewrite <- Hs.
  destruct (existsb is_default (values (sessions m1))).
  - unfold default_session. rewrite <- Hs.
    destruct (first_value is_default (sessions m1)); simpl; auto.
  - unfold default_session, _create_default_session. simpl. rewrite <- Hs.
    destruct (first_value is_default _); simpl; auto.
Qed.

(** X17. The ["current"] entry of [sessions.json] is never read: two
    boots on the same sessions and files that differ only in the saved
    current pointer end with the same index and the same current pointer
    (X16 says which). *)
Theorem boot_ignores_saved_current now files data current current' :
  sessions (init FGP_SESSIONS_DIR isoformat now files
              (SessionsDoc data current))
  = sessions (init FGP_SESSIONS_DIR isoformat now files
                (SessionsDoc data current'))
  /\ current_session_id (init FGP_SESSIONS_DIR isoformat now files
                           (SessionsDoc data current))
     = current_session_id (init FGP_SESSIONS_DIR isoformat now files
                             (SessionsDoc data current')).
Proof.
  change (init FGP_SESSIONS_DIR isoformat now files (SessionsDoc data current))
    with (after_load now
            (fold_left load_step data
               (mkSessionManager [] None files (SessionsDoc data current)))).
  change (init FGP_SESSIONS_DIR isoformat now files (SessionsDoc data current'))
    with (after_load now
            (fold_left load_step data
               (mkSessionManager [] None files (SessionsDoc data current')))).
  apply after_load_same.
  - apply load_fold_same; reflexivity.
  - now rewrite !load_fold_current.
Qed.

End Boot.

Lemma boot_makes_default_current_witness :
  file_ok (SessionsDoc [demo_scene; demo_default] (Some "a1b2c3d4"))
  /\ exists d,
       is_default d = true
       /\ get_current
            (init demo_dir demo_iso 20 {[ blend_file demo_scene ]}
               (SessionsDoc [demo_scene; demo_default] (Some "a1b2c3d4")))
          = Some d.
Proof.
  assert (Hok : file_ok (SessionsDoc [demo_scene; demo_default] (Some "a1b2c3d4"))).
  { simpl. intros s [<-|[<-|[]]]; discriminate. }
  split; [exact Hok|].
  destruct (boot_makes_default_current demo_dir demo_iso 20
              {[ blend_file demo_scene ]} _ Hok) as (d & Hd & _ & Hg).
  exists d. split; assumption.
Defined.

(** *** The index that is saved is the index that is loaded *)

Lemma set_fresh {V : Type} k (v : V) (d : dict V) :
  ~ In k (keys d) -> set k v d = (d ++ [(k, v)])%list.
Proof.
  induction d as [|[k0 v0] d IH]; simpl; [reflexivity|].
  intros H. destruct (String.eqb_spec k k0) as [->|Hk].
  - exfalso. apply H. now left.
  - f_equal. apply IH. intros Hin. apply H. now right.
Qed.

Definition has_file (files : gset string) (item : string * Session) : bool :=
  bool_decide (blend_file (snd item) ∈ files).

Lemma load_fold_filter rest m :
  List.NoDup (keys (sessions m) ++ keys rest)%list ->
  (forall k s, In (k, s) rest -> id s = k) ->
  sessions (fold_left load_step (values rest) m)
  = (sessions m ++ List.filter (has_file (disk m)) rest)%list.
Proof.
  revert m. induction rest as [|[k s] rest IH]; intros m Hnd Hkey; simpl.
  - now rewrite app_nil_r.
  - assert (Hid : id s = k) by (apply Hkey; now left).
    assert (Hkey' : forall k' s', In (k', s') rest -> id s' = k').
    { intros k' s' Hin. apply Hkey. now right. }
    simpl in Hnd.
    assert (Hfresh : ~ In k (keys (sessions m))).
    { apply List.NoDup_remove_2 in Hnd. intros Hin. apply Hnd.
      apply in_or_app. now left. }
    unfold load_step at 2. unfold has_file at 1. simpl. unfold path_exists.
    destruct (bool_decide (blend_file s ∈ disk m)) eqn:E.
    + rewrite IH; simpl.
      * rewrite Hid, (set_fresh k s _ Hfresh). now rewrite <- app_assoc.
      * rewrite Hid, (set_fresh k s _ Hfresh).
        unfold keys at 1. rewrite map_app. simpl.
        rewrite <- app_assoc. exact Hnd.
      * exact Hkey'.
    + apply IH; [|exact Hkey'].
      now apply List.NoDup_remove_1 in Hnd.
Qed.

(** X18. What [_save_sessions] writes and [_load_sessions] reads back:
    for an index keyed by the sessions' ids, loading the saved list on an
    empty manager gives the saved sessions whose backing file exists, in
    their order, and no others.  (So a session whose file was never
    written, as the default session's may be, is dropped.) *)
Theorem load_keeps_sessions_with_files (d : dict Session)
    (files : gset string) (current : option string) :
  wf d ->
  (forall k s, In (k, s) d -> id s = k) ->
  sessions (_load_sessions
              (mkSessionManager [] None files (SessionsDoc (values d) current)))
  = List.filter (has_file files) d.
Proof.
  intros Hwf Hkey. unfold _load_sessions. simpl.
  now rewrite load_fold_filter.
Qed.

Lemma load_keeps_sessions_with_files_witness :
  (wf (sessions demo_manager)
   /\ forall k s, In (k, s) (sessions demo_manager) -> id s = k)
  /\ sessions (_load_sessions
                 (mkSessionManager [] None (disk demo_manager)
                    (SessionsDoc (values (sessions demo_manager))
                       (Some "a1b2c3d4"))))
     = [("a1b2c3d4", demo_scene)].
Proof.
  assert (Hkey : forall k s, In (k, s) (sessions demo_manager) -> id s = k).
  { intros k s Hin. now apply demo_manager_keyed. }
  split; [split; [exact demo_manager_wf|exact Hkey]|].
  rewrite (load_keeps_sessions_with_files (sessions demo_manager)
             (disk demo_manager) (Some "a1b2c3d4") demo_manager_wf Hkey).
  reflexivity.
Defined.

(** *** create, switch, update_modified, get_blend_file *)

Section MoreOperations.
Variable FGP_SESSIONS_DIR : string.
Variable isoformat : Z -> string.

(** X19. [create] with an id that is not in the index returns a session
    that is not the default, has both timestamps set to the current time,
    the given name and metadata (none gives the empty dictionary) and the
    backing file [<sessions dir>/<id>.blend]; the session is added at the
    end of [list()]; the current pointer and the files on disk are
    unchanged (the backing file is not created); and the index is saved
    with the new session in it. *)
Theorem create_adds_session session_id now nm md m :
  get_session session_id m = None ->
  let m' := fst (create FGP_SESSIONS_DIR isoformat session_id now nm md m) in
  let session :=
    snd (create FGP_SESSIONS_DIR isoformat session_id now nm md m) in
  session = mkSession session_id nm
              (FGP_SESSIONS_DIR ++ "/" ++ session_id ++ ".blend")
              (isoformat now) (isoformat now) false
              (match md with Some d => d | None => [] end)
  /\ get_session session_id m' = Some session
  /\ list_sessions m' = (list_sessions m ++ [session])%list
  /\ current_session_id m' = current_session_id m
  /\ disk m' = disk m
  /\ _sessions_file m'
     = SessionsDoc (list_sessions m ++ [session])%list (current_session_id m).
Proof.
  intros Hget m' session. subst m' session.
  unfold get_session in Hget. apply get_None_keys in Hget.
  unfold create, get_session, list_sessions, _save_sessions. simpl.
  split; [reflexivity|]. split; [apply get_set_eq|].
  rewrite (set_fresh _ _ _ Hget). unfold values. rewrite map_app. simpl.
  repeat split.
Qed.

(** X21. [update_modified] never adds or removes a session and leaves the
    current pointer and the files alone.  A session of the index is
    unchanged unless it is the one the call resolves to ([session_id], or
    the current session when [session_id] is omitted or empty), whose
    [modified_at] becomes the current time while its other fields stay;
    and when the call resolves to an id that is not in the index, the
    manager is left exactly as it was (no error is raised). *)
Theorem update_modified_touches_one now session_id m :
  current_session_id (update_modified isoformat now session_id m)
    = current_session_id m
  /\ disk (update_modified isoformat now session_id m) = disk m
  /\ keys (sessions (update_modified isoformat now session_id m))
     = keys (sessions m)
  /\ (forall k s',
        get_session k (update_modified isoformat now session_id m) = Some s' ->
        exists s,
          get_session k m = Some s
          /\ (s' = s
              \/ (s' = mkSession (id s) (name s) (blend_file s) (created_at s)
                                 (isoformat now) (is_default s) (metadata s)
                  /\ py_or session_id (current_session_id m) = Some k)))
  /\ (forall sid s,
        py_or session_id (current_session_id m) = Some sid -> sid <> "" ->
        get_session sid m = Some s ->
        get_session sid (update_modified isoformat now session_id m)
        = Some (mkSession (id s) (name s) (blend_file s) (created_at s)
                          (isoformat now) (is_default s) (metadata s))
        /\ option_map modified_at
             (get_session sid (update_modified isoformat now session_id m))
           = Some (isoformat now))
  /\ (forall sid,
        py_or session_id (current_session_id m) = Some sid ->
        get_session sid m = None ->
        update_modified isoformat now session_id m = m).
Proof.
  unfold update_modified, get_session.
  destruct (py_or session_id (current_session_id m)) as [sid|] eqn:Hsid.
  2:{ repeat split; try reflexivity; try discriminate. eauto. }
  destruct (truthy (Some sid)) eqn:Ht.
  2:{ split; [reflexivity|]. split; [reflexivity|]. split; [reflexivity|].
      split; [eauto|]. split; [|reflexivity].
      intros sid' s [= <-] Hne. apply truthy_Some in Hne. congruence. }
  destruct (get sid (sessions m)) as [s0|] eqn:Hget.
  2:{ split; [reflexivity|]. split; [reflexivity|]. split; [reflexivity|].
      split; [eauto|]. split; [|reflexivity].
      intros sid' s [= <-]. congruence. }
  simpl. split; [reflexivity|]. split; [reflexivity|]. split; [|split; [|split]].
  - apply keys_set_in. apply In_keys. exists s0. now apply get_Some_In.
  - intros k s'. rewrite get_set.
    destruct (String.eqb_spec k sid) as [->|Hk].
    + intros [= <-]. exists s0. split; [assumption|]. right. now split.
    + intros H. exists s'. split; [assumption|now left].
  - intros sid' s [= <-] _ Hs. rewrite Hget in Hs. injection Hs as <-.
    rewrite get_set_eq. split; reflexivity.
  - intros sid' [= <-]. congruence.
Qed.

(** X22. [get_blend_file] answers as [reset] does on the same argument:
    it raises the same error when [reset] raises, and otherwise returns
    the backing file of the session [reset] returns, which is the file
    that no longer exists after the [reset]. *)
Theorem blend_file_is_what_reset_removes now session_id m :
  get_blend_file session_id m
  = match snd (reset isoformat now session_id m) with
    | Ok session => Ok (blend_file session)
    | Raise e => Raise e
    end
  /\ (forall p, get_blend_file session_id m = Ok p ->
        path_exists p (fst (reset isoformat now session_id m)) = false)
  /\ (forall e, get_blend_file session_id m = Raise e ->
        reset isoformat now session_id m = (m, Raise e)).
Proof.
  unfold get_blend_file, reset.
  destruct (py_or session_id (current_session_id m)) as [sid|];
    [|repeat split; [discriminate|now intros e [= <-]]].
  destruct (negb (truthy (Some sid)));
    [repeat split; [discriminate|now intros e [= <-]]|].
  destruct (get sid (sessions m)) as [s|];
    [|repeat split; [discriminate|now intros e [= <-]]].
  simpl. repeat split; [|discriminate].
  intros p [= <-]. apply (path_exists_unlink (blend_file s) m).
Qed.

(** X23. After a successful [switch] to a session with a non-empty id,
    [get_current()] returns that session; the index and the files are
    untouched, and the saved index carries the new current pointer. *)
Theorem switch_makes_current session_id m session :
  get_session session_id m = Some session ->
  session_id <> "" ->
  snd (switch session_id m) = Ok session
  /\ get_current (fst (switch session_id m)) = Some session
  /\ sessions (fst (switch session_id m)) = sessions m
  /\ disk (fst (switch session_id m)) = disk m
  /\ _sessions_file (fst (switch session_id m))
     = SessionsDoc (list_sessions m) (Some session_id).
Proof.
  intros Hget Hne. rewrite (switch_known _ _ _ Hget).
  unfold get_current. simpl.
  apply truthy_Some in Hne. simpl in Hne. rewrite Hne.
  repeat split. exact Hget.
Qed.

End MoreOperations.

Lemma create_adds_session_witness :
  get_session "0f1e2d3c" demo_manager = None
  /\ list_sessions
       (fst (create demo_dir demo_iso "0f1e2d3c" 20 "draft" None demo_manager))
     = [demo_default; demo_scene;
        mkSession "0f1e2d3c" "draft" (demo_dir ++ "/0f1e2d3c.blend")
                  (demo_iso 20) (demo_iso 20) false []].
Proof.
  split; [reflexivity|].
  destruct (create_adds_session demo_dir demo_iso "0f1e2d3c" 20 "draft" None
              demo_manager eq_refl) as (Hs & _ & Hl & _).
  rewrite Hl, Hs. reflexivity.
Defined.

(** X21 on the running example: the current session is touched, the
    default session is not. *)
Lemma update_modified_touches_one_witness :
  (py_or None (current_session_id demo_manager) = Some "a1b2c3d4"
   /\ "a1b2c3d4" <> ""
   /\ get_session "a1b2c3d4" demo_manager = Some demo_scene)
  /\ modified_at demo_scene = "2026-01-17T10:00:00+00:00"
  /\ get_session "a1b2c3d4" (update_modified demo_iso 20 None demo_manager)
     = Some (mkSession "a1b2c3d4" "scene" (demo_dir ++ "/a1b2c3d4.blend")
                       "2026-01-17T10:00:00+00:00"
                       "2026-01-17T11:30:00.500000+00:00" false [])
  /\ get_session "default" (update_modified demo_iso 20 None demo_manager)
     = Some demo_default.
Proof.
  assert (Hne : "a1b2c3d4" <> "") by discriminate.
  split; [split; [reflexivity|split; [exact Hne|reflexivity]]|].
  split; [reflexivity|].
  destruct (update_modified_touches_one demo_iso 20 None demo_manager)
    as (_ & _ & _ & Hothers & Hone & _).
  split.
  - exact (proj1 (Hone "a1b2c3d4" demo_scene eq_refl Hne eq_refl)).
  - destruct (get_session "default"
                (update_modified demo_iso 20 None demo_manager))
      as [s'|] eqn:Hs'; [|discriminate Hs'].
    destruct (Hothers "default" s' Hs') as (s & Hs & [->|[_ Hk]]).
    + rewrite <- Hs. reflexivity.
    + discriminate Hk.
Defined.

Lemma switch_makes_current_witness :
  (get_session "default" demo_manager = Some demo_default
   /\ "default" <> "")
  /\ get_current (fst (switch "default" demo_manager)) = Some demo_default.
Proof.
  assert (Hne : "default" <> "") by discriminate.
  split; [split; [reflexivity|exact Hne]|].
  exact (proj1 (proj2 (switch_makes_current "default" demo_manager
                         demo_default eq_refl Hne))).
Defined.

Lemma reachable_consistent_witness :
  reachable demo_dir demo_iso demo_manager /\ consistent demo_manager.
Proof.
  assert (H : reachable demo_dir demo_iso demo_manager).
  { unfold demo_manager.
    eapply reachable_step; [|apply step_switch].
    eapply reachable_step; [|apply step_worker_saves].
    eapply reachable_step;
      [|apply (step_create demo_dir demo_iso "a1b2c3d4" 1 "scene" None);
        [discriminate|reflexivity]].
    apply reachable_boot. exact I. }
  split; [exact H|]. exact (reachable_consistent demo_dir demo_iso _ H).
Defined.

End SessionsFacts.

(** ** The main-thread bridge *)

Module BridgeFacts.
Import PyDict PyDictFacts Bridge.

Section HandleRequest.
Variable Service : Type.
Variable bytes_decode : string -> string + string.
Variable from_ndjson_line : string -> Request + string.
Variable to_ndjson_bytes : Response -> string.

(** [Request.from_ndjson_line(request_data.decode())]: the request, or the
    text of the exception either call raised. *)
Definition decode_request (request_data : string) : Request + string :=
  match bytes_decode request_data with
  | inr e => inr e
  | inl line => from_ndjson_line line
  end.

(** C2. When the input does not decode to a request, [handle_request]
    returns, without raising and without touching the bridge's state, the
    encoding of one failure response with id ["unknown"], code
    [PARSE_ERROR] and a message that carries the decoder's error. *)
Theorem undecodable_input_gets_parse_error
    start_time end_time others request_data st e :
  decode_request request_data = inr e ->
  handle_request Service bytes_decode from_ndjson_line to_ndjson_bytes
    start_time end_time others request_data st =
    (st,
     Ok (to_ndjson_bytes
           (Failure "unknown" PARSE_ERROR ("Invalid request: " ++ e)
                    (elapsed_ms start_time end_time)))).
Proof.
  unfold decode_request, handle_request, handle_request_begin.
  destruct (bytes_decode request_data) as [line|e'].
  - intros ->. reflexivity.
  - intros [= ->]. reflexivity.
Qed.

(** A decoded request is registered and queued. *)
Lemma begin_registers start_time end_time request_data st request :
  decode_request request_data = inl request ->
  exists st1,
    handle_request_begin Service bytes_decode from_ndjson_line
      to_ndjson_bytes start_time end_time request_data st
      = (st1, inr (request, length (events st)))
    /\ get (id request) (result_events st1) = Some (length (events st))
    /\ event_is_set (length (events st)) (events st1) = false
    /\ result_store st1 = result_store st.
Proof.
  unfold decode_request, handle_request_begin.
  destruct (bytes_decode request_data) as [line|e']; [|discriminate].
  intros ->. eexists. split; [reflexivity|]. simpl.
  split; [apply get_set_eq|]. split; [|reflexivity].
  unfold event_is_set. rewrite app_nth2 by lia.
  now rewrite Nat.sub_diag.
Qed.

(** The branch taken when the wait succeeds removes both entries. *)
Lemma finish_removes_entries start_time end_time request event st reply :
  event_is_set event (events st) = true ->
  snd (handle_request_end Service to_ndjson_bytes start_time end_time
         request event st) = Ok reply ->
  get (id request)
      (result_events
         (fst (handle_request_end Service to_ndjson_bytes start_time end_time
                 request event st))) = None
  /\ get (id request)
       (result_store
          (fst (handle_request_end Service to_ndjson_bytes start_time end_time
                  request event st))) = None.
Proof.
  unfold handle_request_end. intros ->. simpl.
  destruct (get (id request) (result_events st)); simpl; [|discriminate].
  intros _. split; [apply get_del_eq|apply get_del_eq].
Qed.

(** The branch taken on a timeout returns the state as it found it: the
    event registered for the request stays in [result_events]. *)
Lemma finish_timeout_keeps_state start_time end_time request event st :
  event_is_set event (events st) = false ->
  handle_request_end Service to_ndjson_bytes start_time end_time
    request event st =
    (st,
     Ok (to_ndjson_bytes
           (Failure (id request) INTERNAL_ERROR "Operation timed out"
                    (elapsed_ms start_time end_time)))).
Proof. unfold handle_request_end. intros ->. reflexivity. Qed.

End HandleRequest.

(** *** A running example *)

(** Stand-ins for the protocol module and the worker: a line ["{" ++ id] is
    the request [id] for the method [scene.info], any other line is
    malformed; a response is printed as its id and its error message; the
    worker answers every method with [None]. *)
Definition demo_decode (request_data : string) : string + string :=
  inl request_data.

Definition demo_from_ndjson_line (line : string) : Request + string :=
  match line with
  | String c rest =>
      if Ascii.eqb c (Ascii.ascii_of_nat 123)
      then inl (mkRequest rest 1 "scene.info" ANone)
      else inr "Expecting value: line 1 column 1 (char 0)"
  | EmptyString => inr "Expecting value: line 1 column 1 (char 0)"
  end.

Definition demo_to_ndjson (r : Response) : string :=
  match r with
  | Success i _ _ => i ++ " ok"
  | Failure i _ message _ => i ++ " error: " ++ message
  end.

Definition demo_dispatch (svc : unit) (method : string) (prms : Any)
    : unit * (Any + string) :=
  (svc, inl ANone).

Definition demo_state : State unit := mkState [] [] [] [] tt.

Definition demo_handle (others : State unit -> State unit)
    (request_data : string) (st : State unit) : State unit * outcome string :=
  handle_request unit demo_decode demo_from_ndjson_line demo_to_ndjson
    float_0 float_1 others request_data st.

Definition demo_tick : State unit -> State unit :=
  process_queue unit (fun _ => inl ANone) (fun _ => inl ANone) demo_dispatch.

Lemma undecodable_input_gets_parse_error_witness :
  decode_request demo_decode demo_from_ndjson_line "not json"
    = inr "Expecting value: line 1 column 1 (char 0)"
  /\ demo_handle (fun st => st) "not json" demo_state =
       (demo_state,
        Ok "unknown error: Invalid request: Expecting value: line 1 column 1 (char 0)").
Proof.
  split; [reflexivity|].
  exact (undecodable_input_gets_parse_error unit demo_decode
           demo_from_ndjson_line demo_to_ndjson float_0 float_1
           (fun st => st) "not json" demo_state _ eq_refl).
Defined.

(** C8. Evaluation of a request ["r1"] whose wait times out because the
    main thread does not tick in time: the timeout reply is returned and
    the event registered under ["r1"] is still in [result_events].  When the
    main thread ticks afterwards, the result of the abandoned request is
    put in [result_store], where it stays as well.  A request that is
    answered in time leaves neither entry. *)
Theorem timed_out_request_stays_registered :
  let st' := fst (demo_handle (fun st => st) "{r1" demo_state) in
  snd (demo_handle (fun st => st) "{r1" demo_state)
    = Ok "r1 error: Operation timed out"
  /\ contains "r1" (result_events st') = true
  /\ contains "r1" (result_events (demo_tick st')) = true
  /\ contains "r1" (result_store (demo_tick st')) = true
  /\ contains "r1" (result_events (fst (demo_handle demo_tick "{r1" demo_state)))
     = false
  /\ contains "r1" (result_store (fst (demo_handle demo_tick "{r1" demo_state)))
     = false.
Proof. vm_compute. repeat split; reflexivity. Qed.

(** *** A tick of the main thread *)

Lemma length_event_set ref l : length (event_set ref l) = length l.
Proof.
  revert ref. induction l as [|b l IH]; intros [|ref]; simpl; auto.
Qed.

Lemma event_set_sets ref l :
  (ref < length l)%nat -> event_is_set ref (event_set ref l) = true.
Proof.
  unfold event_is_set. revert ref.
  induction l as [|b l IH]; intros [|ref]; simpl; intros H; try lia; auto.
  apply IH. lia.
Qed.

Lemma event_set_keeps ref ref' l :
  event_is_set ref' l = true -> event_is_set ref' (event_set ref l) = true.
Proof.
  unfold event_is_set. revert ref ref'.
  induction l as [|b l IH]; intros [|ref] [|ref']; simpl; auto.
Qed.

Section Tick.
Variable Service : Type.
Variable health_result : Service -> Any + string.
Variable methods_result : Service -> Any + string.
Variable dispatch : Service -> string -> Any -> Service * (Any + string).
Variable bytes_decode : string -> string + string.
Variable from_ndjson_line : string -> Request + string.
Variable to_ndjson_bytes : Response -> string.

Definition tick_item : State Service -> string * string * Any -> State Service :=
  process_item Service health_result methods_result dispatch.

Definition tick : State Service -> State Service :=
  process_queue Service health_result methods_result dispatch.

Lemma tick_item_unfold st request_id method prms :
  tick_item st (request_id, method, prms) =
    let r := execute Service health_result methods_result dispatch method prms
               (service st) in
    let st1 := with_result_store Service
                 (set request_id (snd r) (result_store st))
                 (with_service Service (fst r) st) in
    match get request_id (result_events st) with
    | Some ref => with_events Service (event_set ref (events st)) st1
    | None => st1
    end.
Proof.
  unfold tick_item, process_item.
  destruct (execute Service health_result methods_result dispatch method prms
              (service st)) as [svc r].
  reflexivity.
Qed.

Lemma tick_item_frame st item :
  operation_queue (tick_item st item) = operation_queue st
  /\ result_events (tick_item st item) = result_events st
  /\ length (events (tick_item st item)) = length (events st)
  /\ (forall ref, event_is_set ref (events st) = true ->
                  event_is_set ref (events (tick_item st item)) = true)
  /\ (forall k, contains k (result_store st) = true ->
                contains k (result_store (tick_item st item)) = true).
Proof.
  destruct item as [[request_id method] prms]. rewrite tick_item_unfold.
  cbv zeta.
  assert (Hstore : forall k, contains k (result_store st) = true ->
            contains k
              (set request_id
                 (snd (execute Service health_result methods_result dispatch
                         method prms (service st)))
                 (result_store st)) = true).
  { intros k. unfold contains. rewrite get_set.
    destruct (String.eqb k request_id); auto. }
  destruct (get request_id (result_events st)) as [ref|]; simpl.
  - repeat split; auto using length_event_set, event_set_keeps.
  - repeat split; auto.
Qed.

Lemma tick_item_answers st request_id method prms :
  get request_id (result_store (tick_item st (request_id, method, prms)))
  = Some (snd (execute Service health_result methods_result dispatch method
                 prms (service st)))
  /\ (forall ref, get request_id (result_events st) = Some ref ->
                  (ref < length (events st))%nat ->
                  event_is_set ref
                    (events (tick_item st (request_id, method, prms))) = true).
Proof.
  rewrite tick_item_unfold. cbv zeta.
  destruct (get request_id (result_events st)) as [ref|]; simpl.
  - split; [apply get_set_eq|]. intros ref' [= <-]. apply event_set_sets.
  - split; [apply get_set_eq|]. discriminate.
Qed.

Lemma tick_fold_frame items st :
  operation_queue (fold_left tick_item items st) = operation_queue st
  /\ result_events (fold_left tick_item items st) = result_events st
  /\ length (events (fold_left tick_item items st)) = length (events st)
  /\ (forall ref, event_is_set ref (events st) = true ->
                  event_is_set ref (events (fold_left tick_item items st)) = true)
  /\ (forall k, contains k (result_store st) = true ->
                contains k (result_store (fold_left tick_item items st)) = true).
Proof.
  revert st. induction items as [|item items IH]; intros st; simpl.
  - repeat split; auto.
  - destruct (tick_item_frame st item) as (H1 & H2 & H3 & H4 & H5).
    destruct (IH (tick_item st item)) as (I1 & I2 & I3 & I4 & I5).
    rewrite I1, I2, I3, H1, H2, H3. repeat split; auto.
Qed.

Lemma tick_fold_answers items st request_id method prms :
  In (request_id, method, prms) items ->
  contains request_id (result_store (fold_left tick_item items st)) = true
  /\ (forall ref, get request_id (result_events st) = Some ref ->
                  (ref < length (events st))%nat ->
                  event_is_set ref (events (fold_left tick_item items st)) = true).
Proof.
  revert st. induction items as [|item items IH]; intros st; simpl; [tauto|].
  destruct (tick_item_frame st item) as (H1 & H2 & H3 & H4 & H5).
  intros [->|Hin].
  - destruct (tick_item_answers st request_id method prms) as [Hs He].
    destruct (tick_fold_frame items (tick_item st (request_id, method, prms)))
      as (_ & _ & _ & I4 & I5).
    split.
    + apply I5. unfold contains. now rewrite Hs.
    + intros ref Hg Hlt. apply I4. now apply He.
  - destruct (IH (tick_item st item) Hin) as [Hs He]. split; [assumption|].
    intros ref Hg Hlt. apply He; [now rewrite H2|now rewrite H3].
Qed.

(** X24. One run of [process_queue] empties the operation queue and
    answers every operation that was in it: each queued request id has an
    entry in [result_store] afterwards, and the event registered for it, if
    any, is set.  No registration is added or removed, and no event that
    was set is cleared. *)
Theorem tick_answers_every_queued_request st :
  operation_queue (tick st) = []
  /\ result_events (tick st) = result_events st
  /\ (forall request_id method prms,
        In (request_id, method, prms) (operation_queue st) ->
        contains request_id (result_store (tick st)) = true
        /\ forall ref, get request_id (result_events st) = Some ref ->
                       (ref < length (events st))%nat ->
                       event_is_set ref (events (tick st)) = true)
  /\ (forall ref, event_is_set ref (events st) = true ->
                  event_is_set ref (events (tick st)) = true)
  /\ (forall k, contains k (result_store st) = true ->
                contains k (result_store (tick st)) = true).
Proof.
  unfold tick, process_queue. fold tick_item.
  set (st0 := with_operation_queue Service [] st).
  destruct (tick_fold_frame (operation_queue st) st0) as (H1 & H2 & H3 & H4 & H5).
  split; [exact H1|]. split; [exact H2|]. split; [|split; [exact H4|exact H5]].
  intros request_id method prms Hin.
  exact (tick_fold_answers (operation_queue st) st0 request_id method prms Hin).
Qed.



End Tick.


End BridgeFacts.

(** ** Routing in the service *)

Module ServiceFacts.
Import Service.

Lemma substring_all s : String.substring 0 (String.length s) s = s.
Proof. induction s as [|c s IH]; simpl; [reflexivity|now rewrite IH]. Qed.

Lemma strip_prefixed method :
  strip_service_prefix ("blender." ++ method) = method.
Proof.
  unfold strip_service_prefix.
  change ("blender." ++ method)
    with (String (Ascii.ascii_of_nat 98) (String (Ascii.ascii_of_nat 108)
         (String (Ascii.ascii_of_nat 101) (String (Ascii.ascii_of_nat 110)
         (String (Ascii.ascii_of_nat 100) (String (Ascii.ascii_of_nat 101)
         (String (Ascii.ascii_of_nat 114) (String (Ascii.ascii_of_nat 46)
            method)))))))).
  simpl. destruct method; simpl; [reflexivity|].
  f_equal. apply substring_all.
Qed.

(** X26. [method.split(".", 1)] loses nothing: the category has no dot in
    it, and the method is the category when it has no dot, and otherwise
    the category, a dot and the action (which may hold further dots). *)
Theorem split_at_dot_round_trip s :
  snd (split_at_dot (fst (split_at_dot s))) = None
  /\ s = match snd (split_at_dot s) with
         | Some action => fst (split_at_dot s) ++ "." ++ action
         | None => fst (split_at_dot s)
         end.
Proof.
  induction s as [|c s [IH1 IH2]]; simpl; [split; reflexivity|].
  destruct (Ascii.eqb_spec c (Ascii.ascii_of_nat 46)) as [->|Hc]; simpl.
  - split; reflexivity.
  - destruct (Ascii.eqb_spec c (Ascii.ascii_of_nat 46)); [contradiction|].
    simpl. split; [assumption|].
    destruct (snd (split_at_dot s)) as [action|].
    + change (String c s = String c (fst (split_at_dot s) ++ "." ++ action)).
      now f_equal.
    + now f_equal.
Qed.

(** X27. The service prefix is optional: for a method that does not
    itself start with ["blender."], [dispatch] sends ["blender." + method]
    where it sends [method], or raises the same error. *)
Theorem prefixed_method_routes_alike method :
  String.prefix "blender." method = false ->
  dispatch_target ("blender." ++ method) = dispatch_target method.
Proof.
  intros Hp. unfold dispatch_target. rewrite strip_prefixed.
  unfold strip_service_prefix. now rewrite Hp.
Qed.

Lemma prefixed_method_routes_alike_witness :
  String.prefix "blender." "light.create" = false
  /\ dispatch_target "blender.light.create"
     = Ok (ToHandler CameraHandler "light" "create")
  /\ dispatch_target "light.create"
     = Ok (ToHandler CameraHandler "light" "create").
Proof.
  split; [reflexivity|].
  pose proof (prefixed_method_routes_alike "light.create" eq_refl) as H.
  change (dispatch_target "blender.light.create"
          = dispatch_target "light.create") in H.
  rewrite H. split; reflexivity.
Defined.

End ServiceFacts.
